(** * The WebGPU viewer extension: matrix helpers, instance binding, render loops

    A shallow embedding of [viewer.js] (the rotating cube) and
    [visualization.js] (the instanced bar chart).

    Numbers.  The matrix helpers, the render loops and the data source are
    embedded over exact rationals and [NaN]: there the rounding of binary64
    arithmetic and of [Float32Array] stores is not modelled, and there are no
    infinities (a division by zero yields [NaN]); what is stated of them is
    stated of the arithmetic the code writes down, evaluated exactly.  The
    instance binder, [updateInstanceScales], whose claims speak of the very
    numbers a bar ends with, is embedded a second time, in [Machine], over
    the numbers of the machine: binary64 with its rounding to nearest and its
    infinities, and the single-precision store of a [Float32Array].

    Calls.  [Math.max(...values, 1)] is a call with as many arguments as the
    sequence is long, plus one; what an engine takes in one call is a
    parameter of the host, at least the eleven arguments of the chart's own
    magnitudes. *)

From Stdlib Require Import QArith Qcanon Qround Qabs Qpower Lqa Ascii.
From stdpp Require Import base list numbers strings functions.

Local Open Scope Qc_scope.

(** ** JavaScript numbers *)

Inductive number : Type :=
  | Fin (q : Qc)
  | NaN.

Definition num (q : Q) : number := Fin (Q2Qc q).
Arguments num q%_Q.

Global Instance number_eq_dec : EqDecision number.
Proof. solve_decision. Defined.

Definition lift2 (f : Qc → Qc → Qc) (x y : number) : number :=
  match x, y with
  | Fin a, Fin b => Fin (f a b)
  | _, _ => NaN
  end.

Definition nadd : number → number → number := lift2 Qcplus.
Definition nsub : number → number → number := lift2 Qcminus.
Definition nmul : number → number → number := lift2 Qcmult.
Definition nneg (x : number) : number :=
  match x with Fin a => Fin (- a) | NaN => NaN end.
Definition ndiv (x y : number) : number :=
  match x, y with
  | Fin a, Fin b => if decide (b = 0) then NaN else Fin (a / b)
  | _, _ => NaN
  end.

Declare Scope js_scope.
Delimit Scope js_scope with js.
Bind Scope js_scope with number.
Infix "+" := nadd : js_scope.
Infix "-" := nsub : js_scope.
Infix "*" := nmul : js_scope.
Infix "/" := ndiv : js_scope.
Notation "- x" := (nneg x) : js_scope.

(** [ToNumber] of the result of an indexed read: [undefined] becomes [NaN]. *)
Definition to_number (v : option number) : number := default NaN v.

(** [Math.max] of two arguments: [NaN] as soon as one of them is [NaN], the
    larger one otherwise. *)
Definition max2 (x y : number) : number :=
  match x, y with
  | Fin a, Fin b => if decide (a ≤ b) then Fin b else Fin a
  | _, _ => NaN
  end.

(** The builtins of [Math] the code calls, left to the host. *)
Record Math : Type := {
  PI : number;
  tan : number → number;
  sin : number → number;
  cos : number → number;
  hypot : number → number → number → number
}.

(** ** Typed arrays *)

(** A [Float32Array] is a list of numbers of fixed length: a read past the end
    gives [undefined], a write past the end is dropped (as stdpp's insert). *)
Definition Float32Array (n : nat) : list number := replicate n (num 0).

Definition get (a : list number) (i : nat) : number := to_number (a !! i).

(** ** What the vertex stage does with the uploaded matrix *)

(** WGSL [m * v] for [m : mat4x4<f32>] read column by column from the uniform
    buffer: component [r] is the sum over columns [c] of [m[4c+r] * v[c]]. *)
Definition mat4_mul_vec4 (m v : list number) : list number :=
  let row r :=
    (get m r * get v 0 + get m (4 + r) * get v 1
     + get m (8 + r) * get v 2 + get m (12 + r) * get v 3)%js in
  [row 0%nat; row 1%nat; row 2%nat; row 3%nat].

(** Depth after the perspective divide: [clip.z / clip.w]. *)
Definition ndc_depth (m p : list number) : number :=
  let clip := mat4_mul_vec4 m p in (get clip 2 / get clip 3)%js.

(** The point of the view axis at depth coordinate [z]. *)
Definition center_axis_point (z : number) : list number :=
  [num 0; num 0; z; num 1].

Definition of_nat (n : nat) : number := Fin (Q2Qc (inject_Z (Z.of_nat n))).

(** [x || y] on numbers: [0] and [NaN] are the falsy ones. *)
Definition falsy (x : number) : bool :=
  match x with
  | Fin q => bool_decide (q = 0)
  | NaN => true
  end.

(** ** The page, the device and the variables of the script *)

Inductive buffer : Type := VertexBuffer | IndexBuffer | InstanceBuffer | UniformBuffer.

Global Instance buffer_eq_dec : EqDecision buffer.
Proof. solve_decision. Defined.

(** A texture, as far as the code looks at it: [width] and [height]. *)
Definition texture : Type := (nat * nat)%type.

(** One submitted render pass: what was attached and bound when
    [drawIndexed] was recorded. *)
Record pass : Type := Pass {
  pass_target : texture;          (* context.getCurrentTexture() *)
  pass_depth : texture;           (* depthStencilAttachment.view *)
  pass_uniform : list number;     (* contents of the uniform buffer *)
  pass_instances : list number;   (* contents of the buffer in slot 1 *)
  pass_index_count : nat;
  pass_instance_count : nat
}.

(** The calls that reach the device, in the order they are made. *)
Inductive command : Type :=
  | Configure (width height : number)
  | CreateBuffer (b : buffer) (size : nat)
  | WriteBuffer (b : buffer) (data : list number)
  | CreateShaderModule
  | CreateRenderPipeline
  | CreateTexture (t : texture)
  | DestroyTexture (t : texture)
  | CreateBindGroup
  | Submit (p : pass).

(** What the host still holds a callback for. *)
Inductive callback : Type :=
  | ResizeListener        (* window.addEventListener('resize', resizeCanvas) *)
  | FrameCallback         (* requestAnimationFrame(frame) *)
  | IntervalCallback      (* setInterval(fetchDataAndUpdate, 15000) *)
  | FetchContinuation.    (* fetchDataAndUpdate suspended at [await fetch(...)] *)

Global Instance callback_eq_dec : EqDecision callback.
Proof. solve_decision. Defined.

#[projections(primitive)]
Record world : Type := World {
  message_display : string;       (* #message, style.display *)
  canvas_display : string;        (* the canvas, style.display *)
  clientWidth : nat;
  clientHeight : nat;
  canvas_width : nat;
  canvas_height : nat;
  random_calls : nat;             (* draws of Math.random() so far *)
  device_log : list command;      (* most recent call last *)
  memory : buffer → list number;  (* contents of the device buffers *)
  callbacks : list callback;
  depthTexture : texture;
  then_ : number;                 (* viewer.js: [then] *)
  rotation : number;              (* visualization.js *)
  instanceData : list number      (* visualization.js *)
}.

Definition set_message_display (v : string) (w : world) : world :=
  let '(World a b c d e f g h i j k l m n) := w in World v b c d e f g h i j k l m n.
Definition set_canvas_display (v : string) (w : world) : world :=
  let '(World a b c d e f g h i j k l m n) := w in World a v c d e f g h i j k l m n.
Definition set_client (cw ch : nat) (w : world) : world :=
  let '(World a b c d e f g h i j k l m n) := w in World a b cw ch e f g h i j k l m n.
Definition set_canvas_width (v : nat) (w : world) : world :=
  let '(World a b c d e f g h i j k l m n) := w in World a b c d v f g h i j k l m n.
Definition set_canvas_height (v : nat) (w : world) : world :=
  let '(World a b c d e f g h i j k l m n) := w in World a b c d e v g h i j k l m n.
Definition set_random_calls (v : nat) (w : world) : world :=
  let '(World a b c d e f g h i j k l m n) := w in World a b c d e f v h i j k l m n.
Definition set_device_log (v : list command) (w : world) : world :=
  let '(World a b c d e f g h i j k l m n) := w in World a b c d e f g v i j k l m n.
Definition set_memory (v : buffer → list number) (w : world) : world :=
  let '(World a b c d e f g h i j k l m n) := w in World a b c d e f g h v j k l m n.
Definition set_callbacks (v : list callback) (w : world) : world :=
  let '(World a b c d e f g h i j k l m n) := w in World a b c d e f g h i v k l m n.
Definition set_depthTexture (v : texture) (w : world) : world :=
  let '(World a b c d e f g h i j k l m n) := w in World a b c d e f g h i j v l m n.
Definition set_then (v : number) (w : world) : world :=
  let '(World a b c d e f g h i j k l m n) := w in World a b c d e f g h i j k v m n.
Definition set_rotation (v : number) (w : world) : world :=
  let '(World a b c d e f g h i j k l m n) := w in World a b c d e f g h i j k l v n.
Definition set_instanceData (v : list number) (w : world) : world :=
  let '(World a b c d e f g h i j k l m n) := w in World a b c d e f g h i j k l m v.

(** The page once loaded, before its script has run: nothing has reached the
    device and the host holds no callback. *)
Definition page_loaded (message canvas : string) (cw ch width height : nat) : world :=
  {| message_display := message; canvas_display := canvas;
     clientWidth := cw; clientHeight := ch;
     canvas_width := width; canvas_height := height;
     random_calls := 0; device_log := [];
     memory := λ _, []; callbacks := [];
     depthTexture := (0, 0)%nat; then_ := num 0; rotation := num 0;
     instanceData := [] |}.

(** ** What the host supplies *)

Inductive gpu_support : Type :=
  | NoGpu         (* navigator.gpu is undefined *)
  | NoAdapter     (* requestAdapter() resolves to null *)
  | GpuReady.

Record Host : Type := {
  math : Math;
  random : nat → number;          (* the n-th draw of Math.random() *)
  parseFloat : string → number;
  gpu : gpu_support;
  devicePixelRatio : number;      (* window.devicePixelRatio *)
  pixels : number → nat;          (* the number kept by canvas.width = v *)
  max_arguments : N;              (* the arguments the engine takes in one call *)
  max_arguments_chart : (10 < max_arguments)%N
                                  (* the eleven of the chart's own call are taken *)
}.

(** ** Completions and the state monad of the script *)

Inductive exn : Type := TypeError | SyntaxError | RangeError.

Inductive completion (A : Type) : Type :=
  | Normal (a : A)
  | Throw (e : exn).
Arguments Normal {A} a.
Arguments Throw {A} e.

Definition JS (A : Type) : Type := world → completion A * world.

Definition ret {A} (a : A) : JS A := λ w, (Normal a, w).
Definition throw {A} (e : exn) : JS A := λ w, (Throw e, w).
Definition bind {A B} (c : JS A) (k : A → JS B) : JS B :=
  λ w, match c w with
       | (Normal a, w') => k a w'
       | (Throw e, w') => (Throw e, w')
       end.
(** [try { c } catch (e) { h e }] *)
Definition try_catch {A} (c : JS A) (h : exn → JS A) : JS A :=
  λ w, match c w with
       | (Normal a, w') => (Normal a, w')
       | (Throw e, w') => h e w'
       end.

Notation "'let*' x := c 'in' k" := (bind c (λ x, k))
  (at level 10, x name, c at level 100, k at level 200).
Notation "c >>> k" := (bind c (λ _, k))
  (at level 100, k at level 200, right associativity).

Definition lift {A} (c : completion A) : JS A := λ w, (c, w).
Definition gets {A} (f : world → A) : JS A := λ w, (Normal (f w), w).
Definition modify (f : world → world) : JS unit := λ w, (Normal tt, f w).

Fixpoint mapM {A B} (f : A → JS B) (l : list A) : JS (list B) :=
  match l with
  | [] => ret []
  | a :: l' => let* b := f a in let* bs := mapM f l' in ret (b :: bs)
  end.

(** A call on the device: logged, in order. *)
Definition emit (c : command) : JS unit :=
  modify (λ w, set_device_log (device_log w ++ [c]) w).

(** [device.queue.writeBuffer(b, 0, data)] *)
Definition writeBuffer (b : buffer) (data : list number) : JS unit :=
  emit (WriteBuffer b data) >>>
  modify (λ w, set_memory (<[b := data]> (memory w)) w).

Definition register (cb : callback) : JS unit :=
  modify (λ w, set_callbacks (cb :: callbacks w) w).

(** [Math.random()] *)
Definition Math_random (h : Host) : JS number :=
  let* n := gets random_calls in
  modify (set_random_calls (S n)) >>>
  ret (random h n).

Fixpoint remove_one (cb : callback) (l : list callback) : list callback :=
  match l with
  | [] => []
  | x :: l' => if decide (x = cb) then l' else x :: remove_one cb l'
  end.

(** ** What a request can come back with *)

Local Unset Elimination Schemes.
Inductive json : Type :=
  | JNull
  | JBool (b : bool)
  | JNumber (n : number)
  | JString (s : string)
  | JArray (items : list json)
  | JObject (fields : list (string * json)).   (* own properties *)
Local Set Elimination Schemes.

(** The body of a response, as [resp.json()] sees it. *)
Inductive body : Type :=
  | BadJson                 (* resp.json() rejects *)
  | Parsed (data : json).

Inductive fetch_result : Type :=
  | NetworkError            (* fetch(...) rejects *)
  | Response (ok : bool) (b : body).

(** What the event loop of the host can deliver. *)
Inductive event : Type :=
  | Resize (cw ch : nat)          (* the layout changed, 'resize' is dispatched *)
  | AnimationFrame (time : number)
  | IntervalTick
  | FetchSettled (r : fetch_result).

Fixpoint assoc (name : string) (fields : list (string * json)) : option json :=
  match fields with
  | [] => None
  | (k, v) :: rest => if decide (k = name) then Some v else assoc name rest
  end.

(** [v.name] for a value that is neither [null] nor [undefined]; [None] is
    [undefined].  None of the names read below is defined on a prototype. *)
Definition property (v : json) (name : string) : option json :=
  match v with
  | JObject fields => assoc name fields
  | _ => None
  end.

(** [s.replace(/,/g, '')] *)
Fixpoint remove_commas (s : string) : string :=
  match s with
  | EmptyString => EmptyString
  | String c rest =>
      if Ascii.eqb c ","%char then remove_commas rest else String c (remove_commas rest)
  end.

(** ** viewer.js: the matrix helpers of the rotating cube *)

Module Viewer.
Section Helpers.
Context (M : Math).

Definition perspective (fov aspect near far : number) : list number :=
  let f := (num 1.0 / tan M (fov / num 2))%js in
  let nf := (num 1 / (near - far))%js in
  let out := Float32Array 16 in
  let out := <[0%nat := (f / aspect)%js]> out in
  let out := <[1%nat := num 0]> out in
  let out := <[2%nat := num 0]> out in
  let out := <[3%nat := num 0]> out in
  let out := <[4%nat := num 0]> out in
  let out := <[5%nat := f]> out in
  let out := <[6%nat := num 0]> out in
  let out := <[7%nat := num 0]> out in
  let out := <[8%nat := num 0]> out in
  let out := <[9%nat := num 0]> out in
  let out := <[10%nat := ((far + near) * nf)%js]> out in
  let out := <[11%nat := num (-1)]> out in
  let out := <[12%nat := num 0]> out in
  let out := <[13%nat := num 0]> out in
  let out := <[14%nat := (num 2 * far * near * nf)%js]> out in
  let out := <[15%nat := num 0]> out in
  out.

Definition lookAt (eye center up : list number) : list number :=
  let out := Float32Array 16 in
  let x0 := (get eye 0 - get center 0)%js in
  let x1 := (get eye 1 - get center 1)%js in
  let x2 := (get eye 2 - get center 2)%js in
  let len := hypot M x0 x1 x2 in
  let zx := (x0 / len)%js in
  let zy := (x1 / len)%js in
  let zz := (x2 / len)%js in
  let xx := (get up 1 * zz - get up 2 * zy)%js in
  let xy := (get up 2 * zx - get up 0 * zz)%js in
  let xz := (get up 0 * zy - get up 1 * zx)%js in
  let len := hypot M xx xy xz in
  let xx := (xx / len)%js in
  let xy := (xy / len)%js in
  let xz := (xz / len)%js in
  let yx := (zy * xz - zz * xy)%js in
  let yy := (zz * xx - zx * xz)%js in
  let yz := (zx * xy - zy * xx)%js in
  let len := hypot M yx yy yz in
  let yx := (yx / len)%js in
  let yy := (yy / len)%js in
  let yz := (yz / len)%js in
  let out := <[0%nat := xx]> out in
  let out := <[1%nat := yx]> out in
  let out := <[2%nat := zx]> out in
  let out := <[3%nat := num 0]> out in
  let out := <[4%nat := xy]> out in
  let out := <[5%nat := yy]> out in
  let out := <[6%nat := zy]> out in
  let out := <[7%nat := num 0]> out in
  let out := <[8%nat := xz]> out in
  let out := <[9%nat := yz]> out in
  let out := <[10%nat := zz]> out in
  let out := <[11%nat := num 0]> out in
  let out := <[12%nat := (- (xx * get eye 0 + xy * get eye 1 + xz * get eye 2))%js]> out in
  let out := <[13%nat := (- (yx * get eye 0 + yy * get eye 1 + yz * get eye 2))%js]> out in
  let out := <[14%nat := (- (zx * get eye 0 + zy * get eye 1 + zz * get eye 2))%js]> out in
  let out := <[15%nat := num 1]> out in
  out.

(** One turn of the [for (let i = 0; i < 4; ++i)] loop of [multiply]. *)
Definition multiply_body (a b : list number) (out : list number) (i : nat)
    : list number :=
  let ai0 := get a i in
  let ai1 := get a (i + 4) in
  let ai2 := get a (i + 8) in
  let ai3 := get a (i + 12) in
  let out := <[i := (ai0 * get b 0 + ai1 * get b 1 + ai2 * get b 2 + ai3 * get b 3)%js]> out in
  let out := <[(i + 4)%nat := (ai0 * get b 4 + ai1 * get b 5 + ai2 * get b 6 + ai3 * get b 7)%js]> out in
  let out := <[(i + 8)%nat := (ai0 * get b 8 + ai1 * get b 9 + ai2 * get b 10 + ai3 * get b 11)%js]> out in
  let out := <[(i + 12)%nat := (ai0 * get b 12 + ai1 * get b 13 + ai2 * get b 14 + ai3 * get b 15)%js]> out in
  out.

Definition multiply (a b : list number) : list number :=
  foldl (multiply_body a b) (Float32Array 16) (seq 0 4).

Definition rotateY (matrix : list number) (angle : number) : list number :=
  let c := cos M angle in
  let s := sin M angle in
  let rot := [ c; num 0; (- s)%js; num 0;
               num 0; num 1; num 0; num 0;
               s; num 0; c; num 0;
               num 0; num 0; num 0; num 1 ] in
  multiply matrix rot.
End Helpers.

Section Program.
Context (h : Host).

Definition vertexData : list number :=
  [ num (-1); num (-1); num 1;      num 1; num 0; num 0;
    num 1; num (-1); num 1;         num 0; num 1; num 0;
    num 1; num 1; num 1;            num 0; num 0; num 1;
    num (-1); num 1; num 1;         num 1; num 1; num 0;
    num (-1); num (-1); num (-1);   num 1; num 0; num 1;
    num 1; num (-1); num (-1);      num 0; num 1; num 1;
    num 1; num 1; num (-1);         num 1; num 1; num 1;
    num (-1); num 1; num (-1);      num 0.5; num 0.5; num 0.5 ].

Definition indexData : list nat :=
  [ 0; 1; 2; 0; 2; 3;
    1; 5; 6; 1; 6; 2;
    5; 4; 7; 5; 7; 6;
    4; 0; 3; 4; 3; 7;
    3; 2; 6; 3; 6; 7;
    4; 5; 1; 4; 1; 0 ]%nat.

(** [window.devicePixelRatio || 1] *)
Definition pixelRatio : number :=
  if falsy (devicePixelRatio h) then num 1 else devicePixelRatio h.

Definition resizeCanvas : JS unit :=
  let* cw := gets clientWidth in
  let* ch := gets clientHeight in
  let width := (of_nat cw * pixelRatio)%js in
  let height := (of_nat ch * pixelRatio)%js in
  modify (set_canvas_width (pixels h width)) >>>
  modify (set_canvas_height (pixels h height)) >>>
  emit (Configure width height).

Definition frame (time : number) : JS unit :=
  let* then0 := gets then_ in
  let dt := ((time - then0) / num 1000)%js in
  modify (set_then time) >>>
  let* cw := gets canvas_width in
  let* ch := gets canvas_height in
  let aspect := (of_nat cw / of_nat ch)%js in
  let projection :=
    perspective (math h) (PI (math h) / num 4)%js aspect (num 0.1) (num 100.0) in
  let view :=
    lookAt (math h) [num 3; num 3; num 4] [num 0; num 0; num 0]
           [num 0; num 1; num 0] in
  let angle := (time * num 0.001)%js in
  let model := [ num 1; num 0; num 0; num 0;
                 num 0; num 1; num 0; num 0;
                 num 0; num 0; num 1; num 0;
                 num 0; num 0; num 0; num 1 ] in
  let model := rotateY (math h) model angle in
  let pv := multiply projection view in
  let mvp := multiply pv model in
  writeBuffer UniformBuffer mvp >>>
  let* depth := gets depthTexture in
  (if decide (depth.1 ≠ cw ∨ depth.2 ≠ ch) then
     emit (DestroyTexture depth) >>>
     emit (CreateTexture (cw, ch)) >>>
     modify (set_depthTexture (cw, ch))
   else ret tt) >>>
  let* depth := gets depthTexture in
  let* mem := gets memory in
  emit (Submit {| pass_target := (cw, ch);
                  pass_depth := depth;
                  pass_uniform := mem UniformBuffer;
                  pass_instances := [];
                  pass_index_count := length indexData;
                  pass_instance_count := 1 |}) >>>
  register FrameCallback.

Definition initWebGPU : JS unit :=
  match gpu h with
  | NoGpu =>
      modify (set_message_display "block") >>>
      modify (set_canvas_display "none")
  | NoAdapter => throw TypeError      (* adapter.requestDevice() on null *)
  | GpuReady =>
      resizeCanvas >>>
      register ResizeListener >>>
      emit (CreateBuffer VertexBuffer (4 * length vertexData)) >>>
      writeBuffer VertexBuffer vertexData >>>
      emit (CreateBuffer IndexBuffer (2 * length indexData)) >>>
      writeBuffer IndexBuffer (of_nat <$> indexData) >>>
      emit (CreateBuffer UniformBuffer 64) >>>
      emit CreateShaderModule >>>
      emit CreateRenderPipeline >>>
      let* cw := gets canvas_width in
      let* ch := gets canvas_height in
      emit (CreateTexture (cw, ch)) >>>
      modify (set_depthTexture (cw, ch)) >>>
      emit CreateBindGroup >>>
      modify (set_then (num 0)) >>>
      register FrameCallback
  end.

(** [initWebGPU().catch((err) => { console.error(err); })] *)
Definition main : JS unit := try_catch initWebGPU (λ _, ret tt).

(** One turn of the event loop: the callback runs if the host holds it. *)
Definition handle (w : world) (ev : event) : world :=
  match ev with
  | Resize cw ch =>
      let w := set_client cw ch w in
      if decide (ResizeListener ∈ callbacks w) then (resizeCanvas w).2 else w
  | AnimationFrame time =>
      if decide (FrameCallback ∈ callbacks w)
      then (frame time (set_callbacks (remove_one FrameCallback (callbacks w)) w)).2
      else w
  | IntervalTick | FetchSettled _ => w
  end.

Definition run (evs : list event) (w : world) : world := foldl handle w evs.
End Program.
End Viewer.

(** ** visualization.js: the matrix helpers of the bar chart *)

Module Visualization.
Section Helpers.
Context (M : Math).

Definition perspective (fov aspect near far : number) : list number :=
  let f := (num 1.0 / tan M (fov / num 2))%js in
  let nf := (num 1 / (near - far))%js in
  let out := Float32Array 16 in
  let out := <[0%nat := (f / aspect)%js]> out in
  let out := <[1%nat := num 0]> out in
  let out := <[2%nat := num 0]> out in
  let out := <[3%nat := num 0]> out in
  let out := <[4%nat := num 0]> out in
  let out := <[5%nat := f]> out in
  let out := <[6%nat := num 0]> out in
  let out := <[7%nat := num 0]> out in
  let out := <[8%nat := num 0]> out in
  let out := <[9%nat := num 0]> out in
  let out := <[10%nat := ((far + near) * nf)%js]> out in
  let out := <[11%nat := num (-1)]> out in
  let out := <[12%nat := num 0]> out in
  let out := <[13%nat := num 0]> out in
  let out := <[14%nat := (num 2 * far * near * nf)%js]> out in
  let out := <[15%nat := num 0]> out in
  out.

Definition lookAt (eye center up : list number) : list number :=
  let out := Float32Array 16 in
  let zx0 := (get eye 0 - get center 0)%js in
  let zx1 := (get eye 1 - get center 1)%js in
  let zx2 := (get eye 2 - get center 2)%js in
  let len := hypot M zx0 zx1 zx2 in
  let zx := (zx0 / len)%js in
  let zy := (zx1 / len)%js in
  let zz := (zx2 / len)%js in
  let xx := (get up 1 * zz - get up 2 * zy)%js in
  let xy := (get up 2 * zx - get up 0 * zz)%js in
  let xz := (get up 0 * zy - get up 1 * zx)%js in
  let len := hypot M xx xy xz in
  let xx := (xx / len)%js in
  let xy := (xy / len)%js in
  let xz := (xz / len)%js in
  let yx := (zy * xz - zz * xy)%js in
  let yy := (zz * xx - zx * xz)%js in
  let yz := (zx * xy - zy * xx)%js in
  let len := hypot M yx yy yz in
  let yx := (yx / len)%js in
  let yy := (yy / len)%js in
  let yz := (yz / len)%js in
  let out := <[0%nat := xx]> out in
  let out := <[1%nat := yx]> out in
  let out := <[2%nat := zx]> out in
  let out := <[3%nat := num 0]> out in
  let out := <[4%nat := xy]> out in
  let out := <[5%nat := yy]> out in
  let out := <[6%nat := zy]> out in
  let out := <[7%nat := num 0]> out in
  let out := <[8%nat := xz]> out in
  let out := <[9%nat := yz]> out in
  let out := <[10%nat := zz]> out in
  let out := <[11%nat := num 0]> out in
  let out := <[12%nat := (- (xx * get eye 0 + xy * get eye 1 + xz * get eye 2))%js]> out in
  let out := <[13%nat := (- (yx * get eye 0 + yy * get eye 1 + yz * get eye 2))%js]> out in
  let out := <[14%nat := (- (zx * get eye 0 + zy * get eye 1 + zz * get eye 2))%js]> out in
  let out := <[15%nat := num 1]> out in
  out.

Definition multiply (a b : list number) : list number :=
  let out := Float32Array 16 in
  let a00 := get a 0 in let a01 := get a 1 in
  let a02 := get a 2 in let a03 := get a 3 in
  let a10 := get a 4 in let a11 := get a 5 in
  let a12 := get a 6 in let a13 := get a 7 in
  let a20 := get a 8 in let a21 := get a 9 in
  let a22 := get a 10 in let a23 := get a 11 in
  let a30 := get a 12 in let a31 := get a 13 in
  let a32 := get a 14 in let a33 := get a 15 in
  let b00 := get b 0 in let b01 := get b 1 in
  let b02 := get b 2 in let b03 := get b 3 in
  let b10 := get b 4 in let b11 := get b 5 in
  let b12 := get b 6 in let b13 := get b 7 in
  let b20 := get b 8 in let b21 := get b 9 in
  let b22 := get b 10 in let b23 := get b 11 in
  let b30 := get b 12 in let b31 := get b 13 in
  let b32 := get b 14 in let b33 := get b 15 in
  let out := <[0%nat := (a00 * b00 + a01 * b10 + a02 * b20 + a03 * b30)%js]> out in
  let out := <[1%nat := (a00 * b01 + a01 * b11 + a02 * b21 + a03 * b31)%js]> out in
  let out := <[2%nat := (a00 * b02 + a01 * b12 + a02 * b22 + a03 * b32)%js]> out in
  let out := <[3%nat := (a00 * b03 + a01 * b13 + a02 * b23 + a03 * b33)%js]> out in
  let out := <[4%nat := (a10 * b00 + a11 * b10 + a12 * b20 + a13 * b30)%js]> out in
  let out := <[5%nat := (a10 * b01 + a11 * b11 + a12 * b21 + a13 * b31)%js]> out in
  let out := <[6%nat := (a10 * b02 + a11 * b12 + a12 * b22 + a13 * b32)%js]> out in
  let out := <[7%nat := (a10 * b03 + a11 * b13 + a12 * b23 + a13 * b33)%js]> out in
  let out := <[8%nat := (a20 * b00 + a21 * b10 + a22 * b20 + a23 * b30)%js]> out in
  let out := <[9%nat := (a20 * b01 + a21 * b11 + a22 * b21 + a23 * b31)%js]> out in
  let out := <[10%nat := (a20 * b02 + a21 * b12 + a22 * b22 + a23 * b32)%js]> out in
  let out := <[11%nat := (a20 * b03 + a21 * b13 + a22 * b23 + a23 * b33)%js]> out in
  let out := <[12%nat := (a30 * b00 + a31 * b10 + a32 * b20 + a33 * b30)%js]> out in
  let out := <[13%nat := (a30 * b01 + a31 * b11 + a32 * b21 + a33 * b31)%js]> out in
  let out := <[14%nat := (a30 * b02 + a31 * b12 + a32 * b22 + a33 * b32)%js]> out in
  let out := <[15%nat := (a30 * b03 + a31 * b13 + a32 * b23 + a33 * b33)%js]> out in
  out.
End Helpers.

Definition barCount : nat := 10.
Definition barSpacing : number := num 0.12.

Definition cubeVertices : list number :=
  [ num (-0.5); num (-0.5); num 0.5;
    num 0.5; num (-0.5); num 0.5;
    num 0.5; num 0.5; num 0.5;
    num (-0.5); num 0.5; num 0.5;
    num (-0.5); num (-0.5); num (-0.5);
    num 0.5; num (-0.5); num (-0.5);
    num 0.5; num 0.5; num (-0.5);
    num (-0.5); num 0.5; num (-0.5) ].

Definition cubeIndices : list nat :=
  [ 0; 1; 2; 0; 2; 3;
    1; 5; 6; 1; 6; 2;
    5; 4; 7; 5; 7; 6;
    4; 0; 3; 4; 3; 7;
    3; 2; 6; 3; 6; 7;
    4; 5; 1; 4; 1; 0 ]%nat.

(** One turn of the loop that fills [instanceData] at start-up. *)
Definition initial_instance (data : list number) (i : nat) : list number :=
  let x := ((of_nat i - (of_nat barCount - num 1) / num 2) * barSpacing)%js in
  let data := <[(i * 6 + 0)%nat := x]> data in
  let data := <[(i * 6 + 1)%nat := num 0.0]> data in
  let data := <[(i * 6 + 2)%nat := num 0.0]> data in
  let data := <[(i * 6 + 3)%nat := num 0.08]> data in
  let data := <[(i * 6 + 4)%nat := num 0.5]> data in
  let data := <[(i * 6 + 5)%nat := num 0.08]> data in
  data.

Definition initial_instanceData : list number :=
  foldl initial_instance (Float32Array (barCount * 6)) (seq 0 barCount).

(** What [Math.max] returns for the arguments [values] followed by [last]. *)
Definition largest (values : list number) (last : number) : number :=
  foldr max2 last values.

(** One turn of the loop of [updateInstanceScales]. *)
Definition scale_instance (values : list number) (maxValue : number)
    (data : list number) (i : nat) : list number :=
  let normalized := (to_number (values !! i) / maxValue)%js in
  <[(i * 6 + 4)%nat := (num 0.05 + normalized * num 0.9)%js]> data.

(** The instance record of bar [i], as the pipeline's second vertex buffer
    lays it out (stride of six floats: [offset] at 0, [scale] at 3). *)
Definition offset_x (data : list number) (i : nat) : number := get data (i * 6 + 0).
Definition offset_y (data : list number) (i : nat) : number := get data (i * 6 + 1).
Definition offset_z (data : list number) (i : nat) : number := get data (i * 6 + 2).
Definition scale_x (data : list number) (i : nat) : number := get data (i * 6 + 3).
Definition scale_y (data : list number) (i : nat) : number := get data (i * 6 + 4).
Definition scale_z (data : list number) (i : nat) : number := get data (i * 6 + 5).

(** [data.bpi?.USD?.rate?.replace(/,/g, '')]; [None] is [undefined].  The
    expression touches nothing: it has a value or it throws. *)
Definition rate_text (data : json) : completion (option string) :=
  match data with
  | JNull => Throw TypeError              (* data.bpi on null *)
  | _ =>
      match property data "bpi" with
      | None | Some JNull => Normal None
      | Some bpi =>
          match property bpi "USD" with
          | None | Some JNull => Normal None
          | Some usd =>
              match property usd "rate" with
              | None | Some JNull => Normal None
              | Some (JString s) => Normal (Some (remove_commas s))
              | Some _ => Throw TypeError (* rate.replace is not a function *)
              end
          end
      end
  end.

Section Program.
Context (h : Host).

(** [window.devicePixelRatio || 1] *)
Definition pixelRatio : number :=
  if falsy (devicePixelRatio h) then num 1 else devicePixelRatio h.

Definition resizeCanvas : JS unit :=
  let* cw := gets clientWidth in
  let* ch := gets clientHeight in
  let width := (of_nat cw * pixelRatio)%js in
  let height := (of_nat ch * pixelRatio)%js in
  modify (set_canvas_width (pixels h width)) >>>
  modify (set_canvas_height (pixels h height)) >>>
  emit (Configure width height).

(** [parseFloat] of a string or of [undefined] *)
Definition parse (text : option string) : number :=
  match text with
  | Some s => parseFloat h s
  | None => NaN
  end.

(** [Math.max(...values, last)].  The spread makes [length values + 1]
    arguments of the call; the engine takes [max_arguments] at most, and with
    more it throws a [RangeError] before [Math.max] runs. *)
Definition Math_max (values : list number) (last : number) : JS number :=
  if decide (N.of_nat (length values) < max_arguments h)%N
  then ret (largest values last)
  else throw RangeError.

Definition updateInstanceScales (values : list number) : JS unit :=
  let* maxValue := Math_max values (num 1) in
  let* data := gets instanceData in
  let data := foldl (scale_instance values maxValue) data (seq 0 barCount) in
  modify (set_instanceData data) >>>
  writeBuffer InstanceBuffer data.

(** [new Array(barCount).fill(0).map(() => draw)] *)
Definition fill_map (draw : JS number) : JS (list number) :=
  mapM (λ _, draw) (replicate barCount (num 0)).

(** [const values = new Array(barCount).fill(0).map(() => usdRate * (0.8 + Math.random() * 0.4))] *)
Definition values (usdRate : number) : JS (list number) :=
  fill_map (let* r := Math_random h in
            ret (usdRate * (num 0.8 + r * num 0.4))%js).

(** [const randomValues = new Array(barCount).fill(0).map(() => Math.random() * 100)] *)
Definition randomValues : JS (list number) :=
  fill_map (let* r := Math_random h in ret (r * num 100)%js).

(** [fetchDataAndUpdate] from the point where the request has settled with
    [r]; up to there the function has touched nothing. *)
Definition fetchDataAndUpdate (r : fetch_result) : JS unit :=
  let* returned :=
    try_catch
      (match r with
       | NetworkError => throw TypeError
       | Response ok b =>
           if ok then
             let* data := match b with
                          | BadJson => throw SyntaxError
                          | Parsed data => ret data
                          end in
             let* text := lift (rate_text data) in
             let* usdRate :=
               if falsy (parse text)
               then let* r := Math_random h in ret (r * num 50000)%js
               else ret (parse text) in
             let* values := values usdRate in
             updateInstanceScales values >>>
             ret true
           else ret false
       end)
      (λ _, ret false) in
  if (returned : bool) then ret tt
  else
    let* randomValues := randomValues in
    updateInstanceScales randomValues.

Definition frame : JS unit :=
  let* rotation0 := gets rotation in
  let rotation1 := (rotation0 + num 0.003)%js in
  modify (set_rotation rotation1) >>>
  let* cw := gets canvas_width in
  let* ch := gets canvas_height in
  let aspect := (of_nat cw / of_nat ch)%js in
  let proj :=
    perspective (math h) (PI (math h) / num 4)%js aspect (num 0.1) (num 100) in
  let radius := num 3.0 in
  let eye := [ (sin (math h) rotation1 * radius)%js; num 2.0;
               (cos (math h) rotation1 * radius)%js ] in
  let view :=
    lookAt (math h) eye [num 0; num 0; num 0] [num 0; num 1; num 0] in
  let mvp := multiply proj view in
  writeBuffer UniformBuffer mvp >>>
  let* depth := gets depthTexture in
  let* mem := gets memory in
  emit CreateBindGroup >>>
  emit (Submit {| pass_target := (cw, ch);
                  pass_depth := depth;
                  pass_uniform := mem UniformBuffer;
                  pass_instances := mem InstanceBuffer;
                  pass_index_count := length cubeIndices;
                  pass_instance_count := barCount |}) >>>
  register FrameCallback.

Definition initVisualization : JS unit :=
  match gpu h with
  | NoGpu =>
      modify (set_message_display "block") >>>
      modify (set_canvas_display "none")
  | NoAdapter => throw TypeError      (* adapter.requestDevice() on null *)
  | GpuReady =>
      resizeCanvas >>>
      register ResizeListener >>>
      emit (CreateBuffer VertexBuffer (4 * length cubeVertices)) >>>
      writeBuffer VertexBuffer cubeVertices >>>
      emit (CreateBuffer IndexBuffer (2 * length cubeIndices)) >>>
      writeBuffer IndexBuffer (of_nat <$> cubeIndices) >>>
      modify (set_instanceData initial_instanceData) >>>
      emit (CreateBuffer InstanceBuffer (4 * length initial_instanceData)) >>>
      writeBuffer InstanceBuffer initial_instanceData >>>
      emit (CreateBuffer UniformBuffer 64) >>>
      emit CreateShaderModule >>>
      emit CreateRenderPipeline >>>
      let* cw := gets canvas_width in
      let* ch := gets canvas_height in
      emit (CreateTexture (cw, ch)) >>>
      modify (set_depthTexture (cw, ch)) >>>
      register IntervalCallback >>>
      register FetchContinuation >>>
      modify (set_rotation (num 0)) >>>
      register FrameCallback
  end.

(** [initVisualization().catch(console.error)] *)
Definition main : JS unit := try_catch initVisualization (λ _, ret tt).

(** One turn of the event loop: the callback runs if the host holds it. *)
Definition handle (w : world) (ev : event) : world :=
  match ev with
  | Resize cw ch =>
      let w := set_client cw ch w in
      if decide (ResizeListener ∈ callbacks w) then (resizeCanvas w).2 else w
  | AnimationFrame _ =>
      if decide (FrameCallback ∈ callbacks w)
      then (frame (set_callbacks (remove_one FrameCallback (callbacks w)) w)).2
      else w
  | IntervalTick =>
      if decide (IntervalCallback ∈ callbacks w)
      then (register FetchContinuation w).2
      else w
  | FetchSettled r =>
      if decide (FetchContinuation ∈ callbacks w)
      then (fetchDataAndUpdate r
              (set_callbacks (remove_one FetchContinuation (callbacks w)) w)).2
      else w
  end.

Definition run (evs : list event) (w : world) : world := foldl handle w evs.
End Program.
End Visualization.

(** ** visualization.js: the instance binder on the machine's numbers *)

(** What [updateInstanceScales] stores, bit for bit: the arithmetic is that
    of binary64 (every operation rounds its exact result to the nearest
    number of the format, a tie going to the even one), and a store into the
    [Float32Array] rounds once more to binary32.  A number that is read back
    from the array is the number that was stored.  The sign of a zero is not
    kept: the binder never divides by a zero. *)
Module Machine.

Definition pow2 (e : Z) : Q := (2 ^ e)%Q.

(** For [q] not zero, the [e] with [2^(e-1) <= |q| < 2^e]. *)
Definition mag (q : Q) : Z :=
  let k := (Z.log2 (Z.abs (Qnum q)) - Z.log2 (Zpos (Qden q)))%Z in
  if Qle_bool (pow2 k) (Qabs q) then (k + 1)%Z else k.

(** The nearest integer, a tie going to the even one. *)
Definition nearest_even (q : Q) : Z :=
  let n := Qfloor q in
  match (q - inject_Z n ?= 1 # 2)%Q with
  | Lt => n
  | Gt => (n + 1)%Z
  | Eq => if Z.even n then n else (n + 1)%Z
  end.

(** A binary format: [precision] bits in the significand, [2^emin] the
    smallest positive number, [2^emax] the first power of two out of range. *)
Record format : Type := Format { precision : Z; emin : Z; emax : Z }.

Definition binary64 : format := Format 53 (-1074) 1024.
Definition binary32 : format := Format 24 (-149) 128.

(** The exponent of the last bit kept when [q] is written in the format. *)
Definition quantum (f : format) (q : Q) : Z :=
  Z.max (mag q - precision f) (emin f).

(** [q] rounded to a multiple of [2^quantum]. *)
Definition nearest (f : format) (q : Q) : Q :=
  let e := quantum f q in
  (inject_Z (nearest_even (q / pow2 e)) * pow2 e)%Q.

(** A binary64 number: a finite one, an infinity or [NaN]. *)
Inductive double : Type :=
  | Finite (q : Qc)
  | Infinite (negative : bool)
  | Nan.

Definition negative (q : Qc) : bool := bool_decide (q < 0).

(** The number of the format nearest to [q], an infinity when it is out of
    range. *)
Definition round (f : format) (q : Qc) : double :=
  let r := nearest f q in
  if Qle_bool (pow2 (emax f)) (Qabs r) then Infinite (negative q)
  else Finite (Q2Qc r).

(** A decimal literal of the script. *)
Definition literal (q : Q) : double := round binary64 (Q2Qc q).

(** The four operations of binary64: the exact result, rounded; infinities
    and [NaN] as IEEE 754 has them. *)
Definition add (x y : double) : double :=
  match x, y with
  | Finite a, Finite b => round binary64 (a + b)
  | Finite _, Infinite s => Infinite s
  | Infinite s, Finite _ => Infinite s
  | Infinite s, Infinite t => if Bool.eqb s t then Infinite s else Nan
  | _, _ => Nan
  end.

Definition sub (x y : double) : double :=
  match x, y with
  | Finite a, Finite b => round binary64 (a - b)
  | Finite _, Infinite s => Infinite (negb s)
  | Infinite s, Finite _ => Infinite s
  | Infinite s, Infinite t => if Bool.eqb s t then Nan else Infinite s
  | _, _ => Nan
  end.

Definition mul (x y : double) : double :=
  match x, y with
  | Finite a, Finite b => round binary64 (a * b)
  | Finite a, Infinite s | Infinite s, Finite a =>
      if decide (a = 0) then Nan else Infinite (xorb s (negative a))
  | Infinite s, Infinite t => Infinite (xorb s t)
  | _, _ => Nan
  end.

Definition div (x y : double) : double :=
  match x, y with
  | Finite a, Finite b =>
      if decide (b = 0) then
        if decide (a = 0) then Nan else Infinite (negative a)
      else round binary64 (a / b)
  | Finite _, Infinite _ => Finite 0
  | Infinite s, Finite b => Infinite (xorb s (negative b))
  | _, _ => Nan
  end.

Module Notations.
Declare Scope machine_scope.
Delimit Scope machine_scope with machine.
Bind Scope machine_scope with double.
Infix "+" := add : machine_scope.
Infix "-" := sub : machine_scope.
Infix "*" := mul : machine_scope.
Infix "/" := div : machine_scope.
End Notations.
Import Notations.

(** [Math.max] of two arguments. *)
Definition max2 (x y : double) : double :=
  match x, y with
  | Nan, _ | _, Nan => Nan
  | Infinite false, _ | _, Infinite false => Infinite false
  | Infinite true, z | z, Infinite true => z
  | Finite a, Finite b => if decide (a ≤ b) then Finite b else Finite a
  end.

(** What [Math.max] returns for the arguments [values] followed by [last]. *)
Definition largest (values : list double) (last : double) : double :=
  foldr max2 last values.

(** [ToNumber] of the result of an indexed read: [undefined] becomes [NaN]. *)
Definition to_number (v : option double) : double := default Nan v.

(** What a store into a [Float32Array] keeps of [x]. *)
Definition fround (x : double) : double :=
  match x with
  | Finite a => round binary32 a
  | _ => x
  end.

(** One turn of the loop of [updateInstanceScales]. *)
Definition scale_instance (values : list double) (maxValue : double)
    (data : list double) (i : nat) : list double :=
  let normalized := (to_number (values !! i) / maxValue)%machine in
  <[(i * 6 + 4)%nat := fround (literal 0.05 + normalized * literal 0.9)%machine]> data.

(** What the binder touches: the array of the script and the buffer of the
    device. *)
Record store : Type := Store {
  instanceData : list double;
  instanceBuffer : list double
}.

(** [updateInstanceScales]: the call of [Math.max] with its [RangeError], the
    loop, and the write of the array to the instance buffer. *)
Definition updateInstanceScales (h : Host) (values : list double) (s : store)
    : completion unit * store :=
  if decide (N.of_nat (length values) < max_arguments h)%N then
    let maxValue := largest values (literal 1) in
    let data :=
      foldl (scale_instance values maxValue) (instanceData s)
            (seq 0 Visualization.barCount) in
    (Normal tt, {| instanceData := data; instanceBuffer := data |})
  else (Throw RangeError, s).

Definition scale_y (data : list double) (i : nat) : double :=
  to_number (data !! (i * 6 + 4)%nat).

(** [new Float32Array(n)] *)
Definition Float32Array (n : nat) : list double := replicate n (Finite 0).

(** The loop counter [i], an integer small enough to be a binary64 number. *)
Definition of_nat (n : nat) : double := Finite (Q2Qc (inject_Z (Z.of_nat n))).

(** One turn of the loop that fills [instanceData] at start-up. *)
Definition initial_instance (data : list double) (i : nat) : list double :=
  let x := ((of_nat i - (of_nat Visualization.barCount - literal 1) / literal 2)
            * literal 0.12)%machine in
  let data := <[(i * 6 + 0)%nat := fround x]> data in
  let data := <[(i * 6 + 1)%nat := fround (literal 0.0)]> data in
  let data := <[(i * 6 + 2)%nat := fround (literal 0.0)]> data in
  let data := <[(i * 6 + 3)%nat := fround (literal 0.08)]> data in
  let data := <[(i * 6 + 4)%nat := fround (literal 0.5)]> data in
  let data := <[(i * 6 + 5)%nat := fround (literal 0.08)]> data in
  data.

Definition initial_instanceData : list double :=
  foldl initial_instance (Float32Array (Visualization.barCount * 6))
        (seq 0 Visualization.barCount).

(** The array and the buffer once start-up has filled and written them. *)
Definition started : store :=
  {| instanceData := initial_instanceData; instanceBuffer := initial_instanceData |}.
End Machine.

Import Machine.Notations.


(** ** A host to evaluate on *)

(** Rational stand-ins for the builtins, so that the model runs on concrete
    inputs; nothing evaluated with them below depends on their values. *)
Definition sample_math : Math :=
  {| PI := num 3.1416;
     tan := λ x, x;
     sin := λ x, x;
     cos := λ _, num 1;
     hypot := λ _ _ _, num 1 |}.

Definition floor_pixels (v : number) : nat :=
  match v with
  | Fin q => Z.to_nat (Qfloor q)
  | NaN => 0
  end.

Definition sample_host : Host :=
  {| math := sample_math;
     random := λ _, num 0.5;
     parseFloat := λ _, NaN;
     gpu := GpuReady;
     devicePixelRatio := num 1;
     pixels := floor_pixels;
     max_arguments := 65535;
     max_arguments_chart := eq_refl |}.

Definition sample_page : world := page_loaded "none" "block" 300 150 300 150.

(** The sample host in a browser without [navigator.gpu], and in one that
    has it but finds no adapter. *)
Definition no_gpu_host : Host :=
  {| math := sample_math; random := λ _, num 0.5;
     parseFloat := λ _, NaN; gpu := NoGpu;
     devicePixelRatio := num 1; pixels := floor_pixels;
     max_arguments := 65535; max_arguments_chart := eq_refl |}.

Definition no_adapter_host : Host :=
  {| math := sample_math; random := λ _, num 0.5;
     parseFloat := λ _, NaN; gpu := NoAdapter;
     devicePixelRatio := num 1; pixels := floor_pixels;
     max_arguments := 65535; max_arguments_chart := eq_refl |}.

(** The matrix whose only non-zero entry is a one at index [i]. *)
Definition unit_entry (i : nat) : list number := <[i := num 1]> (Float32Array 16).

(** The chart's page once [main] has run on the sample host. *)
Definition started : world := (Visualization.main sample_host sample_page).2.

(** Magnitudes to evaluate on: [1, 2, ..., 10]. *)
Definition sample_magnitudes : list Qc :=
  [Q2Qc 1; Q2Qc 2; Q2Qc 3; Q2Qc 4; Q2Qc 5; Q2Qc 6; Q2Qc 7; Q2Qc 8; Q2Qc 9; Q2Qc 10].

(** [updates] bound one after the other. *)
Definition bind_all (h : Host) (updates : list (list number)) (w : world) : world :=
  foldl (λ w values, (Visualization.updateInstanceScales h values w).2) w updates.

(** ** Notions the statements use *)

Definition qmax (a b : Qc) : Qc := if decide (a ≤ b) then b else a.

(** The engine takes [values] and one more argument in a call. *)
Definition accepted (h : Host) (values : list number) : Prop :=
  (N.of_nat (length values) < max_arguments h)%N.

Global Instance accepted_dec (h : Host) (values : list number) :
  Decision (accepted h values).
Proof. unfold accepted. apply _. Defined.

(** Every draw of [Math.random()] is in [[0, 1)]. *)
Definition unit_random (h : Host) : Prop :=
  ∀ n, ∃ q, random h n = Fin q ∧ 0 ≤ q ∧ q < 1.

(** [x] is a number in [[lo, hi)]. *)
Definition in_range (lo hi : Qc) (x : number) : Prop :=
  ∃ q, x = Fin q ∧ lo ≤ q ∧ q < hi.

(** The request failed, the status is not a success, the body is not JSON,
    or reading the rate out of it throws. *)
Definition full_fallback (r : fetch_result) : Prop :=
  match r with
  | NetworkError => True
  | Response false _ => True
  | Response true BadJson => True
  | Response true (Parsed data) => ∃ e, Visualization.rate_text data = Throw e
  end.

(** The response is a success and its body is JSON, but the rate read out of
    it is [undefined] or parses to [NaN] or [0]. *)
Definition synthetic_rate (h : Host) (r : fetch_result) : Prop :=
  match r with
  | Response true (Parsed data) =>
      ∃ text, Visualization.rate_text data = Normal text
              ∧ falsy (Visualization.parse h text) = true
  | _ => False
  end.

(** Every pass submitted so far had a depth attachment of the size of its
    colour target, the canvas at that moment. *)
Definition passes_fit (log : list command) : Prop :=
  ∀ p, Submit p ∈ log → pass_depth p = pass_target p.

(** The passes submitted, oldest first. *)
Fixpoint passes (log : list command) : list pass :=
  match log with
  | [] => []
  | Submit p :: rest => p :: passes rest
  | _ :: rest => passes rest
  end.

Definition is_frame (ev : event) : bool :=
  match ev with AnimationFrame _ => true | _ => false end.

Definition is_settled (ev : event) : bool :=
  match ev with FetchSettled _ => true | _ => false end.

(** How many of the events are animation frames. *)
Definition frames (evs : list event) : nat := length (List.filter is_frame evs).

(** The chart has started and nothing has been bound yet: the array and the
    instance buffer are as made at start-up, and the next frame is requested. *)
Definition chart_waiting (w : world) : Prop :=
  instanceData w = Visualization.initial_instanceData
  ∧ memory w InstanceBuffer = Visualization.initial_instanceData
  ∧ FrameCallback ∈ callbacks w.

(** The chart's page after a resize to 600 x 300 and one frame. *)
Definition resized : world :=
  Visualization.run sample_host [Resize 600 300; AnimationFrame (num 16)] started.

(** [m] is the greatest element of [l]. *)
Definition greatest (m : Qc) (l : list Qc) : Prop := m ∈ l ∧ ∀ v, v ∈ l → v ≤ m.

(** The index of a [scale.y] slot of [instanceData]. *)
Definition scale_y_slot (j : nat) : Prop := ∃ i, (i < Visualization.barCount)%nat ∧ j = (i * 6 + 4)%nat.

(** The instance records are as the start-up loop made them, [scale.y] apart. *)
Definition creation_values (data : list number) : Prop :=
  ∀ i, (i < Visualization.barCount)%nat →
    Visualization.offset_x data i
      = ((of_nat i - (of_nat Visualization.barCount - num 1) / num 2)
         * Visualization.barSpacing)%js
    ∧ Visualization.offset_y data i = num 0
    ∧ Visualization.offset_z data i = num 0
    ∧ Visualization.scale_x data i = num 0.08
    ∧ Visualization.scale_z data i = num 0.08.

(** ** Further notions *)

(** The 4 x 4 identity, as [frame] of viewer.js writes it. *)
Definition identity4 : list number :=
  [ num 1; num 0; num 0; num 0;
    num 0; num 1; num 0; num 0;
    num 0; num 0; num 1; num 0;
    num 0; num 0; num 0; num 1 ].

(** Element [i] of a list of rationals, [0] past its end. *)
Definition el (a : list Qc) (i : nat) : Qc := default 0 (a !! i).

(** The calls that provision a resource of the device. *)
Definition provisioning (c : command) : bool :=
  match c with
  | CreateBuffer _ _ | CreateShaderModule | CreateRenderPipeline
  | CreateTexture _ | DestroyTexture _ => true
  | _ => false
  end.

(** The chart is running: the array has its sixty numbers, the instance
    buffer holds exactly the array, the records are as created ([scale.y]
    apart) and the next frame is requested. *)
Definition chart_synced (w : world) : Prop :=
  length (instanceData w) = (Visualization.barCount * 6)%nat
  ∧ memory w InstanceBuffer = instanceData w
  ∧ creation_values (instanceData w)
  ∧ FrameCallback ∈ callbacks w.

(** What a pass of the chart draws: the cube's 36 indices, [barCount] times,
    from an instance buffer of sixty numbers. *)
Definition chart_pass (p : pass) : Prop :=
  pass_index_count p = 36%nat
  ∧ pass_instance_count p = Visualization.barCount
  ∧ length (pass_instances p) = (Visualization.barCount * 6)%nat.

(** The calls viewer.js makes once for all: buffers, shader, pipeline and
    bind group. *)
Definition static_setup (c : command) : bool :=
  match c with
  | CreateBuffer _ _ | CreateShaderModule | CreateRenderPipeline
  | CreateBindGroup => true
  | _ => false
  end.

Definition is_create_texture (c : command) : bool :=
  match c with CreateTexture _ => true | _ => false end.

Definition is_destroy_texture (c : command) : bool :=
  match c with DestroyTexture _ => true | _ => false end.

(** What a pass of the viewer draws: the cube's 36 indices, once, with a
    depth attachment of the size of its target. *)
Definition viewer_pass (p : pass) : Prop :=
  pass_index_count p = 36%nat
  ∧ pass_instance_count p = 1%nat
  ∧ pass_depth p = pass_target p.

(** The response is a success, its body is JSON, and the rate read out of it
    parses to [a]. *)
Definition live_rate (h : Host) (r : fetch_result) (a : Qc) : Prop :=
  match r with
  | Response true (Parsed data) =>
      ∃ text, Visualization.rate_text data = Normal text
              ∧ Visualization.parse h text = Fin a
  | _ => False
  end.

(** The constants of the binder, as binary64 has them, and the single
    precision numbers nearest to [0.05] and [0.95]. *)
Definition double_005 : Qc := Q2Qc (3602879701896397 # 72057594037927936).
Definition double_09 : Qc := Q2Qc (8106479329266893 # 9007199254740992).
Definition double_095 : Qc := Q2Qc (8556839292003943 # 9007199254740992).
Definition single_005 : Qc := Q2Qc (13421773 # 268435456).
Definition single_095 : Qc := Q2Qc (15938355 # 16777216).

(** The rationals [1, 2, ..., n], to evaluate on. *)
Definition sample_qs (n : nat) : list Qc :=
  (λ k, Q2Qc (inject_Z (Z.of_nat k))) <$> seq 1 n.

(** * Properties *)

(** ** Arithmetic on numbers *)

Lemma nadd_Fin (a b : Qc) : (Fin a + Fin b)%js = Fin (a + b).
Proof. reflexivity. Qed.

Lemma nsub_Fin (a b : Qc) : (Fin a - Fin b)%js = Fin (a - b).
Proof. reflexivity. Qed.

Lemma nmul_Fin (a b : Qc) : (Fin a * Fin b)%js = Fin (a * b).
Proof. reflexivity. Qed.

Lemma ndiv_Fin (a b : Qc) : b ≠ 0 → (Fin a / Fin b)%js = Fin (a / b).
Proof. intros Hb. unfold ndiv. by destruct (decide (b = 0)). Qed.

Lemma nmul_comm (x y : number) : (x * y)%js = (y * x)%js.
Proof. destruct x, y; simpl; try done. by rewrite Qcmult_comm. Qed.

Lemma Qcminus_lt_ne (a b : Qc) : a < b → a - b ≠ 0.
Proof.
  intros Hlt E. apply (Qclt_not_eq _ _ Hlt).
  rewrite <- (Qcplus_0_l b), <- E. ring.
Qed.

Lemma Qc_pos_ne (a : Qc) : 0 < a → a ≠ 0.
Proof. intros Hlt ->. by apply Qclt_not_eq in Hlt. Qed.

Lemma Q2Qc_minus_one : Q2Qc (-1) = - 1.
Proof. apply Qc_is_canon. reflexivity. Qed.

Lemma Q2Qc_two : Q2Qc 2 = 1 + 1.
Proof. apply Qc_is_canon. reflexivity. Qed.

(** Equality and difference of two closed numbers, by evaluation. *)
Ltac number_eq := vm_compute; apply (f_equal Fin); apply Qc_is_canon; reflexivity.
Ltac qc_le := unfold Qcle; apply Qle_bool_imp_le; vm_compute; reflexivity.
Ltac number_neq :=
  let E := fresh in
  intros E;
  apply (f_equal (λ x, match x with Fin q => this q | NaN => 0%Q end)) in E;
  vm_compute in E; discriminate E.

(** ** The matrix helpers *)

(** The two [multiply] are each other's mirror image: what visualization.js
    returns for [(a, b)], viewer.js returns for [(b, a)]. *)
Lemma multiply_mirrored (a b : list number) :
  Visualization.multiply a b = Viewer.multiply b a.
Proof.
  unfold Visualization.multiply, Viewer.multiply, Viewer.multiply_body.
  cbn [foldl seq Float32Array replicate insert list_insert Nat.add].
  repeat rewrite (nmul_comm (get b _) (get a _)).
  reflexivity.
Qed.

(** C3 (code defect): on [a] with a one at index 1 and [b] with a one at
    index 4, the [multiply] of visualization.js has its one at index 0 and
    the [multiply] of viewer.js has it at index 5, so the two functions are
    not the same function. *)
Theorem multiply_copies_differ :
  Visualization.multiply (unit_entry 1) (unit_entry 4) = unit_entry 0
  ∧ Viewer.multiply (unit_entry 1) (unit_entry 4) = unit_entry 5
  ∧ Visualization.multiply (unit_entry 1) (unit_entry 4)
    ≠ Viewer.multiply (unit_entry 1) (unit_entry 4).
Proof.
  assert (H1 : Visualization.multiply (unit_entry 1) (unit_entry 4) = unit_entry 0)
    by (vm_compute; reflexivity).
  assert (H2 : Viewer.multiply (unit_entry 1) (unit_entry 4) = unit_entry 5)
    by (vm_compute; reflexivity).
  split; [exact H1 | split; [exact H2 |]].
  rewrite H1, H2. vm_compute. intros E. discriminate E.
Qed.

Lemma perspective_copies_agree (M : Math) (fov aspect near far : number) :
  Visualization.perspective M fov aspect near far
  = Viewer.perspective M fov aspect near far.
Proof. reflexivity. Qed.

(** The depth row of the projection applied to a point of the view axis. *)
Lemma perspective_axis_depth (M : Math) (fov aspect : number) (near far z : Qc) :
  near < far → z ≠ 0 →
  ndc_depth (Viewer.perspective M fov aspect (Fin near) (Fin far))
            (center_axis_point (Fin z))
  = Fin (((far + near) * (1 / (near - far)) * z
          + 2 * far * near * (1 / (near - far))) / - z).
Proof.
  intros Hlt Hz.
  pose proof (Qcminus_lt_ne _ _ Hlt) as Hnf.
  unfold ndc_depth, mat4_mul_vec4, Viewer.perspective, center_axis_point, get, num.
  cbn [Float32Array replicate insert list_insert lookup list_lookup
       to_number default from_option id Nat.add].
  rewrite nsub_Fin, (ndiv_Fin _ _ Hnf), !nadd_Fin, !nmul_Fin, !nadd_Fin.
  assert (Hw : Q2Qc 0 * Q2Qc 0 + Q2Qc 0 * Q2Qc 0 + Q2Qc (-1) * z + Q2Qc 0 * Q2Qc 1
               = - z) by (rewrite Q2Qc_minus_one; ring).
  rewrite Hw, ndiv_Fin.
  - f_equal. f_equal. rewrite Q2Qc_two. ring.
  - intros E. apply Hz. rewrite <- (Qcopp_involutive z), E. ring.
Qed.

(** C2 (code defect): [perspective] (either copy) builds the projection of
    the depth range from [-1] to [1].  For every field of view, every
    [aspect > 0] and every [0 < near < far], the point of the view axis on
    the near plane, [z = -near], leaves the perspective divide with a
    negative depth ([-1] when nothing is rounded), not with the [0] of the
    claim: it lies below the depth range, from [0] to [1], of the pipeline
    the matrix is uploaded to. *)
Theorem perspective_near_plane_negative (M : Math) (fovY : number)
    (aspect near far : Qc) :
  0 < aspect → 0 < near → near < far →
  ∃ d,
    ndc_depth (Viewer.perspective M fovY (Fin aspect) (Fin near) (Fin far))
              (center_axis_point (Fin (- near))) = Fin d
    ∧ ndc_depth (Visualization.perspective M fovY (Fin aspect) (Fin near) (Fin far))
                (center_axis_point (Fin (- near))) = Fin d
    ∧ d < 0.
Proof.
  intros Ha Hn Hlt.
  assert (Hnear : near ≠ 0) by by apply Qc_pos_ne.
  assert (Hnf : near - far ≠ 0) by by apply Qcminus_lt_ne.
  assert (Hopp : ∀ q : Qc, q ≠ 0 → - q ≠ 0).
  { intros q Hq E. apply Hq. rewrite <- (Qcopp_involutive q), E. ring. }
  assert (Hd : ndc_depth (Viewer.perspective M fovY (Fin aspect) (Fin near) (Fin far))
                 (center_axis_point (Fin (- near))) = Fin (- 1)).
  { rewrite perspective_axis_depth by auto. f_equal. field. split; auto. }
  exists (- 1). split; [exact Hd|]. split; [|done].
  by rewrite perspective_copies_agree.
Qed.

Lemma perspective_near_plane_negative_witness :
  ∃ d,
    ndc_depth (Viewer.perspective sample_math (num 0.7854) (num 2) (num 0.1) (num 100))
              (center_axis_point (Fin (- Q2Qc 0.1))) = Fin d
    ∧ d < 0.
Proof.
  destruct (perspective_near_plane_negative sample_math (num 0.7854)
              (Q2Qc 2) (Q2Qc 0.1) (Q2Qc 100)) as (d & Hd & _ & Hneg);
    [reflexivity | reflexivity | reflexivity |].
  exists d. split; [exact Hd | exact Hneg].
Defined.

(** ** The instance binder *)

Section Binder.
Import Visualization.
Local Open Scope nat_scope.
Context (values : list number) (maxValue : number).

Lemma scale_fold_length (n : nat) (data : list number) :
  length (foldl (scale_instance values maxValue) data (seq 0 n)) = length data.
Proof.
  induction n as [|n IH]; [done|].
  rewrite seq_S, foldl_app. simpl. unfold scale_instance at 1.
  by rewrite length_insert.
Qed.

Lemma scale_fold_other (n : nat) (data : list number) (j : nat) :
  (∀ i, i < n → j ≠ i * 6 + 4) →
  foldl (scale_instance values maxValue) data (seq 0 n) !! j = data !! j.
Proof.
  induction n as [|n IH]; intros Hj; [done|].
  rewrite seq_S, foldl_app. simpl. unfold scale_instance at 1.
  rewrite list_lookup_insert_ne by (intros E; apply (Hj n); lia).
  apply IH. intros i Hi. apply Hj. lia.
Qed.

Lemma scale_fold_at (n : nat) (data : list number) (i : nat) :
  i < n → i * 6 + 4 < length data →
  foldl (scale_instance values maxValue) data (seq 0 n) !! (i * 6 + 4)
  = Some (num 0.05 + to_number (values !! i) / maxValue * num 0.9)%js.
Proof.
  induction n as [|n IH]; intros Hi Hlen; [lia|].
  rewrite seq_S, foldl_app. simpl. unfold scale_instance at 1.
  destruct (decide (i = n)) as [->|Hne].
  - rewrite list_lookup_insert_eq; [done|]. by rewrite scale_fold_length.
  - rewrite list_lookup_insert_ne by lia. apply IH; [lia | done].
Qed.
End Binder.

Section BinderEffect.
Import Visualization.
Local Open Scope nat_scope.
Context (h : Host) (values : list number) (w : world).

(** The engine takes the chart's own call: [barCount] values and the [1]. *)
Lemma accepted_barCount : length values = barCount → accepted h values.
Proof.
  intros E. unfold accepted. rewrite E.
  pose proof (max_arguments_chart h). unfold barCount. lia.
Qed.

Lemma update_rejected :
  ¬ accepted h values → updateInstanceScales h values w = (Throw RangeError, w).
Proof.
  intros Hno. unfold updateInstanceScales, Math_max, bind.
  by rewrite decide_False.
Qed.

Lemma update_unfold :
  accepted h values →
  updateInstanceScales h values w
  = let data := foldl (scale_instance values (largest values (num 1)))
                      (instanceData w) (seq 0 barCount) in
    (Normal tt,
     set_memory (<[InstanceBuffer := data]> (memory w))
       (set_device_log (device_log w ++ [WriteBuffer InstanceBuffer data])
          (set_instanceData data w))).
Proof.
  intros Hok. unfold updateInstanceScales, Math_max, bind.
  by rewrite decide_True.
Qed.

Lemma update_returns :
  accepted h values → (updateInstanceScales h values w).1 = Normal tt.
Proof. intros Hok. by rewrite update_unfold. Qed.

Lemma update_instanceData :
  accepted h values →
  instanceData (updateInstanceScales h values w).2
  = foldl (scale_instance values (largest values (num 1)))
          (instanceData w) (seq 0 barCount).
Proof. intros Hok. by rewrite update_unfold. Qed.

Lemma update_device_log :
  accepted h values →
  device_log (updateInstanceScales h values w).2
  = device_log w
    ++ [WriteBuffer InstanceBuffer (instanceData (updateInstanceScales h values w).2)].
Proof. intros Hok. by rewrite update_unfold. Qed.

Lemma update_memory :
  accepted h values →
  memory (updateInstanceScales h values w).2 InstanceBuffer
  = instanceData (updateInstanceScales h values w).2.
Proof. intros Hok. by rewrite update_unfold. Qed.

Lemma update_length :
  length (instanceData (updateInstanceScales h values w).2) = length (instanceData w).
Proof.
  destruct (decide (accepted h values)) as [Hok|Hno].
  - rewrite update_instanceData by done. apply scale_fold_length.
  - by rewrite update_rejected.
Qed.

Lemma update_other_slots (j : nat) :
  ¬ scale_y_slot j →
  instanceData (updateInstanceScales h values w).2 !! j = instanceData w !! j.
Proof.
  intros Hj. destruct (decide (accepted h values)) as [Hok|Hno].
  - rewrite update_instanceData by done. apply scale_fold_other.
    intros i Hi ->. apply Hj. by exists i.
  - by rewrite update_rejected.
Qed.

Lemma update_scale_y (i : nat) :
  accepted h values →
  i < barCount → length (instanceData w) = barCount * 6 →
  scale_y (instanceData (updateInstanceScales h values w).2) i
  = (num 0.05 + to_number (values !! i) / largest values (num 1) * num 0.9)%js.
Proof.
  intros Hok Hi Hlen. unfold scale_y, get. rewrite update_instanceData by done.
  rewrite scale_fold_at; [done | done |]. rewrite Hlen. unfold barCount in *. lia.
Qed.

Lemma update_keeps_record (i : nat) :
  let data' := instanceData (updateInstanceScales h values w).2 in
  offset_x data' i = offset_x (instanceData w) i
  ∧ offset_y data' i = offset_y (instanceData w) i
  ∧ offset_z data' i = offset_z (instanceData w) i
  ∧ scale_x data' i = scale_x (instanceData w) i
  ∧ scale_z data' i = scale_z (instanceData w) i.
Proof.
  unfold offset_x, offset_y, offset_z, scale_x, scale_z, get.
  repeat split; f_equal; apply update_other_slots;
    intros (k & _ & E); lia.
Qed.

Lemma update_keeps_creation_values :
  creation_values (instanceData w) →
  creation_values (instanceData (updateInstanceScales h values w).2).
Proof.
  intros Hc i Hi. destruct (update_keeps_record i) as (-> & -> & -> & -> & ->).
  by apply Hc.
Qed.
End BinderEffect.

(** *** Magnitudes against their maximum *)

Lemma max2_Fin (a b : Qc) : max2 (Fin a) (Fin b) = Fin (qmax a b).
Proof. unfold max2, qmax. by case_decide. Qed.

Lemma largest_Fin (vs : list Qc) (b : Qc) :
  Visualization.largest (Fin <$> vs) (Fin b) = Fin (foldr qmax b vs).
Proof.
  unfold Visualization.largest.
  induction vs as [|v vs IH]; [done|].
  rewrite fmap_cons. cbn [foldr]. rewrite IH. apply max2_Fin.
Qed.

Lemma foldr_qmax_greatest (vs : list Qc) (b : Qc) :
  greatest (foldr qmax b vs) (b :: vs).
Proof.
  induction vs as [|v vs [IHin IHle]]; simpl.
  - split; [left|]. intros v Hv. apply list_elem_of_singleton in Hv as ->. done.
  - unfold qmax at 1. destruct (decide (v ≤ foldr qmax b vs)) as [Hle|Hgt].
    + split.
      * apply elem_of_cons in IHin as [->|Hin]; [left | right; by right].
      * intros x Hx. apply elem_of_cons in Hx as [->|Hx]; [apply IHle; left|].
        apply elem_of_cons in Hx as [->|Hx]; [done|]. apply IHle. by right.
    + apply Qcnot_le_lt, Qclt_le_weak in Hgt. split.
      * right; left.
      * intros x Hx. apply elem_of_cons in Hx as [->|Hx].
        { etrans; [|exact Hgt]. apply IHle. left. }
        apply elem_of_cons in Hx as [->|Hx]; [done|].
        etrans; [|exact Hgt]. apply IHle. by right.
Qed.

Lemma greatest_unique (m m' : Qc) (l : list Qc) :
  greatest m l → greatest m' l → m = m'.
Proof. intros [Hin Hle] [Hin' Hle']. apply Qcle_antisym; auto. Qed.

Lemma largest_greatest (vs : list Qc) (m : Qc) :
  greatest m (1 :: vs) → Visualization.largest (Fin <$> vs) (num 1) = Fin m.
Proof.
  intros Hm. unfold num. rewrite largest_Fin. f_equal.
  eapply greatest_unique; [apply foldr_qmax_greatest | exact Hm].
Qed.

Lemma scale_range (v m : Qc) :
  0 ≤ v → v ≤ m → 1 ≤ m →
  Q2Qc 0.05 ≤ Q2Qc 0.05 + v / m * Q2Qc 0.9
  ∧ Q2Qc 0.05 + v / m * Q2Qc 0.9 ≤ Q2Qc 0.95.
Proof.
  intros Hv Hvm Hm.
  assert (Hpos : 0 < m) by (eapply Qclt_le_trans; [|exact Hm]; done).
  assert (Hinv : 0 ≤ / m) by (apply Qclt_le_weak, Qcinv_pos, Hpos).
  assert (H0 : 0 ≤ v / m) by (apply Qcmult_nonneg_nonneg; done).
  assert (H1 : v / m ≤ 1).
  { rewrite <- (Qcmult_inv_r m) by (by apply Qc_pos_ne).
    by apply Qcmult_le_mono_nonneg_r. }
  assert (H9 : 0 ≤ Q2Qc 0.9) by done.
  split.
  - rewrite <- (Qcplus_0_r (Q2Qc 0.05)) at 1.
    apply Qcplus_le_mono_l. by apply Qcmult_nonneg_nonneg.
  - assert (E : Q2Qc 0.95 = Q2Qc 0.05 + 1 * Q2Qc 0.9) by (apply Qc_is_canon; reflexivity).
    rewrite E. apply Qcplus_le_mono_l. by apply Qcmult_le_mono_nonneg_r.
Qed.

Lemma sample_magnitudes_greatest : greatest (Q2Qc 10) (1 :: sample_magnitudes).
Proof.
  split.
  - unfold sample_magnitudes. do 10 right. left.
  - apply (proj1 (list.Forall_forall (λ v, v ≤ Q2Qc 10) _)).
    unfold sample_magnitudes. repeat constructor; qc_le.
Qed.

(** C1 (as the code has it): [updateInstanceScales] never looks at the length
    of its argument.  For every magnitude sequence whose length differs from
    [barCount]: when the engine takes the sequence and the [1] as the
    arguments of [Math.max], the function returns normally, rewrites
    [scale.y] of every bar [i] to
    [0.05 + (values[i] / Math.max(...values, 1)) * 0.9], which is [NaN] for
    every bar past the end of the sequence, leaves every offset and the
    [scale.x] and [scale.z] components as they were, and writes the instance
    buffer once; when the sequence is too long for one call, [Math.max]
    throws a [RangeError] and nothing has been changed or written. *)
Theorem bind_wrong_length (h : Host) (values : list number) (w : world) :
  length values ≠ Visualization.barCount →
  length (instanceData w) = (Visualization.barCount * 6)%nat →
  let r := Visualization.updateInstanceScales h values w in
  (accepted h values →
   r.1 = Normal tt
   ∧ device_log r.2 = device_log w ++ [WriteBuffer InstanceBuffer (instanceData r.2)]
   ∧ ∀ i, (i < Visualization.barCount)%nat →
       Visualization.scale_y (instanceData r.2) i
         = (num 0.05
            + to_number (values !! i) / Visualization.largest values (num 1)
              * num 0.9)%js
       ∧ ((length values ≤ i)%nat → Visualization.scale_y (instanceData r.2) i = NaN)
       ∧ Visualization.offset_x (instanceData r.2) i = Visualization.offset_x (instanceData w) i
       ∧ Visualization.offset_y (instanceData r.2) i = Visualization.offset_y (instanceData w) i
       ∧ Visualization.offset_z (instanceData r.2) i = Visualization.offset_z (instanceData w) i
       ∧ Visualization.scale_x (instanceData r.2) i = Visualization.scale_x (instanceData w) i
       ∧ Visualization.scale_z (instanceData r.2) i = Visualization.scale_z (instanceData w) i)
  ∧ (¬ accepted h values → r = (Throw RangeError, w)).
Proof.
  intros _ Hdata r. subst r. split; [|apply update_rejected].
  intros Hok. split; [by apply update_returns|].
  split; [by apply update_device_log|].
  intros i Hi.
  split; [by apply update_scale_y|].
  split; [|apply update_keeps_record].
  intros Hpast. rewrite update_scale_y by done.
  by rewrite (lookup_ge_None_2 values i Hpast).
Qed.

Lemma bind_wrong_length_witness :
  let short := Visualization.updateInstanceScales sample_host
                 [num 1; num 2; num 3] started in
  let long := Visualization.updateInstanceScales sample_host
                (replicate (N.to_nat 70000) (num 1)) started in
  (short.1 = Normal tt ∧ Visualization.scale_y (instanceData short.2) 3 = NaN)
  ∧ long = (Throw RangeError, started).
Proof.
  split.
  - assert (Hne : length [num 1; num 2; num 3] ≠ Visualization.barCount)
      by (intros E; discriminate E).
    assert (Hok : accepted sample_host [num 1; num 2; num 3]) by reflexivity.
    destruct (bind_wrong_length sample_host [num 1; num 2; num 3] started Hne eq_refl)
      as [Htaken _].
    destruct (Htaken Hok) as (Hret & _ & Hbars).
    split; [exact Hret|].
    destruct (Hbars 3%nat) as (_ & Hnan & _).
    + unfold Visualization.barCount. lia.
    + apply Hnan. simpl. lia.
  - assert (Hne : length (replicate (N.to_nat 70000) (num 1)) ≠ Visualization.barCount).
    { rewrite length_replicate. unfold Visualization.barCount. lia. }
    destruct (bind_wrong_length sample_host (replicate (N.to_nat 70000) (num 1))
                started Hne eq_refl) as [_ Hrefused].
    apply Hrefused. unfold accepted. rewrite length_replicate.
    cbn [max_arguments sample_host]. lia.
Defined.

(** C1 (as stated) fails: bound to three magnitudes, [updateInstanceScales]
    returns normally, the first bar's [scale.y] goes from [0.5] to [0.35], and
    the instance buffer is written. *)
Lemma bind_three_magnitudes :
  let values := [num 1; num 2; num 3] in
  let r := Visualization.updateInstanceScales sample_host values started in
  length values ≠ Visualization.barCount
  ∧ r.1 = Normal tt
  ∧ Visualization.scale_y (instanceData started) 0 = num 0.5
  ∧ Visualization.scale_y (instanceData r.2) 0 = num 0.35
  ∧ instanceData r.2 ≠ instanceData started
  ∧ device_log r.2
    = device_log started ++ [WriteBuffer InstanceBuffer (instanceData r.2)].
Proof.
  intros values r.
  assert (H0 : Visualization.scale_y (instanceData started) 0 = num 0.5) by number_eq.
  assert (H1 : Visualization.scale_y (instanceData r.2) 0 = num 0.35) by number_eq.
  split; [intros E; discriminate E|]. split; [reflexivity|].
  split; [exact H0|]. split; [exact H1|]. split; [|reflexivity].
  intros E. rewrite E, H0 in H1. revert H1. number_neq.
Qed.

(** *** Only [scale.y] moves *)

Lemma creation_values_initial : creation_values Visualization.initial_instanceData.
Proof.
  intros i Hi. unfold Visualization.barCount in Hi.
  do 10 (destruct i as [|i]; [repeat split; number_eq|]). lia.
Qed.

Lemma bind_all_other_slots (h : Host) (updates : list (list number)) (w : world)
    (j : nat) :
  ¬ scale_y_slot j →
  instanceData (bind_all h updates w) !! j = instanceData w !! j.
Proof.
  intros Hj. revert w. induction updates as [|values updates IH]; intros w; [done|].
  simpl. rewrite IH. by apply update_other_slots.
Qed.

Lemma bind_all_creation_values (h : Host) (updates : list (list number)) (w : world) :
  creation_values (instanceData w) → creation_values (instanceData (bind_all h updates w)).
Proof.
  revert w. induction updates as [|values updates IH]; intros w Hc; [done|].
  simpl. apply IH. by apply update_keeps_creation_values.
Qed.

(** C8: for every magnitude sequence of length [barCount],
    [updateInstanceScales] changes no element of [instanceData] other than
    the [scale.y] slots [i * 6 + 4]; and through any succession of such
    updates of the array made at start-up, each bar keeps
    [offset.x = (i - (barCount - 1) / 2) * barSpacing], [offset.y = 0],
    [offset.z = 0] and [scale.x = scale.z = 0.08]. *)
Theorem bind_frame (h : Host) (updates : list (list number)) (w : world) :
  Forall (λ values, length values = Visualization.barCount) updates →
  (∀ j, ¬ scale_y_slot j →
     instanceData (bind_all h updates w) !! j = instanceData w !! j)
  ∧ (instanceData w = Visualization.initial_instanceData →
     creation_values (instanceData (bind_all h updates w))).
Proof.
  intros _. split.
  - intros j Hj. by apply bind_all_other_slots.
  - intros E. apply bind_all_creation_values. rewrite E.
    apply creation_values_initial.
Qed.

Lemma bind_frame_witness :
  creation_values
    (instanceData
       (bind_all sample_host [Fin <$> sample_magnitudes; Fin <$> sample_magnitudes]
          started)).
Proof.
  assert (H : Forall (λ values : list number, length values = Visualization.barCount)
                [Fin <$> sample_magnitudes; Fin <$> sample_magnitudes])
    by (repeat constructor).
  destruct (bind_frame sample_host
              [Fin <$> sample_magnitudes; Fin <$> sample_magnitudes] started H)
    as [_ Hc].
  apply Hc. reflexivity.
Defined.

(** ** The machine's numbers *)

Section Rounding.
Import Machine.
Local Open Scope Q_scope.

Lemma pow2_pos (e : Z) : 0 < pow2 e.
Proof. apply Qpower_0_lt. reflexivity. Qed.

Lemma pow2_plus (a b : Z) : pow2 (a + b) == pow2 a * pow2 b.
Proof. apply Qpower_plus. discriminate. Qed.

Lemma pow2_le (a b : Z) : (a ≤ b)%Z → pow2 a <= pow2 b.
Proof. intros H. apply Qpower_le_compat_l; [exact H | discriminate]. Qed.

Lemma pow2_succ (a : Z) : pow2 (a + 1) == 2 * pow2 a.
Proof. rewrite pow2_plus. unfold pow2 at 2. simpl. ring. Qed.

Lemma pow2_Z (a : Z) : (0 ≤ a)%Z → pow2 a == inject_Z (2 ^ a).
Proof. intros H. unfold pow2. by rewrite Zpower_Qpower. Qed.

Lemma pow2_minus (a b : Z) : pow2 (a - b) == pow2 a / pow2 b.
Proof. unfold pow2. rewrite Qpower_minus; [reflexivity | discriminate]. Qed.

Lemma log2_bounds (n : Z) :
  (0 < n)%Z →
  pow2 (Z.log2 n) <= inject_Z n ∧ inject_Z n < 2 * pow2 (Z.log2 n).
Proof.
  intros Hn. destruct (Z.log2_spec n Hn) as [Hlo Hhi].
  pose proof (Z.log2_nonneg n) as H0.
  rewrite <- pow2_succ, !pow2_Z by lia. split.
  - by rewrite <- Zle_Qle.
  - rewrite <- Zlt_Qlt. exact Hhi.
Qed.

(** [mag] is what its comment says. *)
Lemma mag_spec (q : Q) :
  0 < q → pow2 (mag q - 1) <= q ∧ q < pow2 (mag q).
Proof.
  intros Hq. unfold mag.
  destruct q as [n d]. simpl Qnum. simpl Qden.
  assert (Hn : (0 < n)%Z).
  { unfold Qlt in Hq. simpl in Hq. lia. }
  rewrite (Z.abs_eq n) by lia.
  set (ln := Z.log2 n). set (ld := Z.log2 (Z.pos d)).
  destruct (log2_bounds n Hn) as [HnA HnB]. fold ln in HnA, HnB.
  destruct (log2_bounds (Z.pos d) eq_refl) as [HdA HdB]. fold ld in HdA, HdB.
  pose proof (pow2_pos ln) as Hpn. pose proof (pow2_pos ld) as Hpd.
  assert (Hd : 0 < inject_Z (Z.pos d)) by reflexivity.
  assert (Eq : n # d == inject_Z n / inject_Z (Z.pos d)) by apply Qmake_Qdiv.
  assert (Ek : pow2 (ln - ld) == pow2 ln / pow2 ld) by apply pow2_minus.
  assert (Hlow : pow2 (ln - ld - 1) <= n # d).
  { replace (ln - ld - 1)%Z with (ln - (ld + 1))%Z by lia.
    rewrite pow2_minus, pow2_succ, Eq.
    apply Qle_shift_div_l; [exact Hd|].
    apply Qle_trans with (pow2 ln / (2 * pow2 ld) * (2 * pow2 ld)).
    - apply Qmult_le_l; [|lra].
      apply Qlt_shift_div_l; lra.
    - field_simplify; lra. }
  assert (Hhigh : n # d < pow2 (ln - ld + 1)).
  { rewrite pow2_succ, Ek, Eq.
    apply Qlt_shift_div_r; [exact Hd|].
    apply Qlt_le_trans with (2 * (pow2 ln / pow2 ld) * pow2 ld).
    - field_simplify; lra.
    - apply Qmult_le_l; [|lra].
      apply Qmult_lt_0_compat; [reflexivity|]. apply Qlt_shift_div_l; lra. }
  rewrite (Qabs_pos (n # d)) by by apply Qlt_le_weak.
  destruct (Qle_bool (pow2 (ln - ld)) (n # d)) eqn:Hb.
  - apply Qle_bool_iff in Hb. split; [|exact Hhigh].
    by replace (ln - ld + 1 - 1)%Z with (ln - ld)%Z by lia.
  - split; [exact Hlow|]. apply Qnot_le_lt. intros Hle.
    apply Qle_bool_iff in Hle. congruence.
Qed.

Lemma mag_mono (x y : Q) : 0 < x → x <= y → (mag x ≤ mag y)%Z.
Proof.
  intros Hx Hxy.
  destruct (mag_spec x Hx) as [Hxl Hxh].
  destruct (mag_spec y) as [Hyl Hyh]; [lra|].
  destruct (Z.le_gt_cases (mag x) (mag y)) as [H|H]; [exact H|].
  pose proof (pow2_le (mag y) (mag x - 1)) as Hp. lapply Hp; [|lia]. lra.
Qed.

Lemma nearest_even_bounds (q : Q) :
  (Qfloor q ≤ nearest_even q ≤ Qfloor q + 1)%Z.
Proof.
  unfold nearest_even.
  destruct (Qcompare _ _); [destruct (Z.even _)| |]; lia.
Qed.

Lemma nearest_even_Z (n : Z) : nearest_even (inject_Z n) = n.
Proof.
  unfold nearest_even. rewrite Qfloor_Z.
  destruct (Qcompare_spec (inject_Z n - inject_Z n) (1 # 2)) as [H|H|H];
    [exfalso; lra | done | exfalso; lra].
Qed.

Lemma nearest_even_mono (x y : Q) : x <= y → (nearest_even x ≤ nearest_even y)%Z.
Proof.
  intros Hxy. pose proof (Qfloor_resp_le x y Hxy) as Hfl.
  destruct (Z.eq_dec (Qfloor x) (Qfloor y)) as [E|Hne].
  - unfold nearest_even. rewrite <- E.
    destruct (Qcompare_spec (x - inject_Z (Qfloor x)) (1 # 2)) as [Hx|Hx|Hx];
      destruct (Qcompare_spec (y - inject_Z (Qfloor x)) (1 # 2)) as [Hy|Hy|Hy];
      try destruct (Z.even (Qfloor x)); try lia; exfalso; lra.
  - pose proof (nearest_even_bounds x). pose proof (nearest_even_bounds y). lia.
Qed.

Lemma nearest_even_le (x : Q) (n : Z) : x <= inject_Z n → (nearest_even x ≤ n)%Z.
Proof. intros H. rewrite <- (nearest_even_Z n). by apply nearest_even_mono. Qed.

Lemma nearest_even_ge (x : Q) (n : Z) : inject_Z n <= x → (n ≤ nearest_even x)%Z.
Proof. intros H. rewrite <- (nearest_even_Z n). by apply nearest_even_mono. Qed.

Context (f : format) (Hprec : (1 ≤ precision f)%Z).

Lemma quantum_mono (x y : Q) : 0 < x → x <= y → (quantum f x ≤ quantum f y)%Z.
Proof. intros Hx Hxy. pose proof (mag_mono x y Hx Hxy). unfold quantum. lia. Qed.

(** Rounded at its own quantum, a number stays below any power of two above
    it. *)
Lemma nearest_le_pow2 (x : Q) (e : Z) :
  0 < x → (quantum f x ≤ e)%Z → (mag x ≤ e)%Z → nearest f x <= pow2 e.
Proof.
  intros Hx Hq Hm. unfold nearest.
  destruct (mag_spec x Hx) as [_ Hhi].
  set (e0 := quantum f x) in *.
  pose proof (pow2_pos e0) as Hp0.
  assert (Hle : x / pow2 e0 <= inject_Z (2 ^ (e - e0))).
  { rewrite <- pow2_Z by lia. rewrite pow2_minus.
    apply Qmult_le_compat_r; [|apply Qlt_le_weak, Qinv_lt_0_compat, Hp0].
    pose proof (pow2_le _ _ Hm). lra. }
  apply nearest_even_le in Hle.
  apply Qle_trans with (inject_Z (2 ^ (e - e0)) * pow2 e0).
  - apply Qmult_le_compat_r; [|lra]. by rewrite <- Zle_Qle.
  - rewrite <- pow2_Z by lia. rewrite <- pow2_plus.
    replace (e - e0 + e0)%Z with e by lia. lra.
Qed.

(** A number that is not subnormal stays above the power of two below it. *)
Lemma nearest_ge_pow2 (y : Q) :
  0 < y → (emin f < quantum f y)%Z → pow2 (mag y - 1) <= nearest f y.
Proof.
  intros Hy Hq. unfold nearest.
  destruct (mag_spec y Hy) as [Hlo _].
  set (e := quantum f y) in *.
  assert (He : e = (mag y - precision f)%Z) by (unfold e, quantum in *; lia).
  pose proof (pow2_pos e) as Hp.
  assert (Hge : inject_Z (2 ^ (precision f - 1)) <= y / pow2 e).
  { rewrite <- pow2_Z by lia.
    replace (precision f - 1)%Z with (mag y - 1 - e)%Z by lia.
    rewrite pow2_minus.
    apply Qmult_le_compat_r; [exact Hlo|apply Qlt_le_weak, Qinv_lt_0_compat, Hp]. }
  apply nearest_even_ge in Hge.
  apply Qle_trans with (inject_Z (2 ^ (precision f - 1)) * pow2 e).
  - rewrite <- pow2_Z by lia. rewrite <- pow2_plus.
    replace (precision f - 1 + e)%Z with (mag y - 1)%Z by lia. lra.
  - apply Qmult_le_compat_r; [|lra]. by rewrite <- Zle_Qle.
Qed.

Lemma nearest_zero (x : Q) : x == 0 → nearest f x == 0.
Proof.
  intros Hx. unfold nearest. pose proof (pow2_pos (quantum f x)) as Hp.
  assert (H0 : nearest_even (x / pow2 (quantum f x)) = 0%Z).
  { apply Z.le_antisymm; [apply nearest_even_le | apply nearest_even_ge]; simpl.
    - apply Qle_shift_div_r; [exact Hp|]. rewrite Qmult_0_l. lra.
    - apply Qle_shift_div_l; [exact Hp|]. rewrite Qmult_0_l. lra. }
  rewrite H0. ring.
Qed.

Lemma nearest_nonneg (x : Q) : 0 <= x → 0 <= nearest f x.
Proof.
  intros Hx. unfold nearest. pose proof (pow2_pos (quantum f x)) as Hp.
  apply Qmult_le_0_compat; [|lra].
  change 0 with (inject_Z 0). rewrite <- Zle_Qle. apply nearest_even_ge.
  change (inject_Z 0) with 0.
  apply Qle_shift_div_l; [exact Hp|]. rewrite Qmult_0_l. exact Hx.
Qed.

(** Rounding to nearest keeps the order. *)
Lemma nearest_mono (x y : Q) : 0 <= x → x <= y → nearest f x <= nearest f y.
Proof.
  intros Hx0 Hxy.
  destruct (Qlt_le_dec 0 x) as [Hx|Hx]; cycle 1.
  { rewrite (nearest_zero x) by lra. apply nearest_nonneg. lra. }
  assert (Hy : 0 < y) by lra.
  pose proof (quantum_mono x y Hx Hxy) as Hq.
  pose proof (mag_mono x y Hx Hxy) as Hm.
  destruct (Z.eq_dec (quantum f x) (quantum f y)) as [E|Hne].
  - unfold nearest. rewrite E.
    pose proof (pow2_pos (quantum f y)) as Hp.
    apply Qmult_le_compat_r; [|lra]. rewrite <- Zle_Qle.
    apply nearest_even_mono.
    apply Qmult_le_compat_r; [exact Hxy|apply Qlt_le_weak, Qinv_lt_0_compat, Hp].
  - assert (Hlt : (quantum f x < quantum f y)%Z) by lia.
    assert (Hmlt : (mag x < mag y)%Z) by (unfold quantum in *; lia).
    apply Qle_trans with (pow2 (mag y - 1)).
    + apply nearest_le_pow2; [exact Hx| |lia]. unfold quantum in *. lia.
    + apply nearest_ge_pow2; [exact Hy|]. unfold quantum in *. lia.
Qed.

Local Open Scope Qc_scope.

(** What [round] gives between two numbers whose roundings are known, and
    finite. *)
Lemma round_between (lo hi x a b : Qc) :
  0 ≤ lo → lo ≤ x → x ≤ hi →
  round f lo = Finite a → round f hi = Finite b →
  ∃ r, round f x = Finite r ∧ a ≤ r ∧ r ≤ b.
Proof.
  intros H0 Hlo Hhi Ea Eb. unfold round in *.
  destruct (Qle_bool _ (Qabs (nearest f lo))) eqn:Hfa; [discriminate|].
  destruct (Qle_bool _ (Qabs (nearest f hi))) eqn:Hfb; [discriminate|].
  injection Ea as <-. injection Eb as <-.
  assert (H0x : (0 <= x)%Q) by (eapply Qle_trans; [exact H0 | exact Hlo]).
  pose proof (nearest_mono lo x H0 Hlo) as Hm1.
  pose proof (nearest_mono x hi H0x Hhi) as Hm2.
  pose proof (nearest_nonneg x H0x) as Hn.
  assert (Hfin : Qle_bool (pow2 (emax f)) (Qabs (nearest f x)) = false).
  { destruct (Qle_bool _ (Qabs (nearest f x))) eqn:Hfx; [|done].
    apply Qle_bool_iff in Hfx. rewrite Qabs_pos in Hfx by done.
    assert (Hover : Qle_bool (pow2 (emax f)) (Qabs (nearest f hi)) = true).
    { apply Qle_bool_iff. rewrite Qabs_pos by (eapply Qle_trans; [exact Hn | exact Hm2]).
      eapply Qle_trans; [exact Hfx | exact Hm2]. }
    congruence. }
  rewrite Hfin. eexists. split; [reflexivity|].
  unfold Qcle. simpl. rewrite !Qred_correct. done.
Qed.
End Rounding.

(** *** The binder on the machine's numbers *)

(** Equality of two closed machine numbers, by evaluation. *)
Ltac double_eq :=
  vm_compute; apply (f_equal Machine.Finite); apply Qc_is_canon; reflexivity.

Section MachineBinder.
Local Open Scope nat_scope.
Context (values : list Machine.double) (maxValue : Machine.double).

Lemma machine_fold_length (n : nat) (data : list Machine.double) :
  length (foldl (Machine.scale_instance values maxValue) data (seq 0 n)) = length data.
Proof.
  induction n as [|n IH]; [done|].
  rewrite seq_S, foldl_app. cbn [foldl]. unfold Machine.scale_instance at 1.
  by rewrite length_insert.
Qed.

Lemma machine_fold_at (n : nat) (data : list Machine.double) (i : nat) :
  i < n → i * 6 + 4 < length data →
  foldl (Machine.scale_instance values maxValue) data (seq 0 n) !! (i * 6 + 4)
  = Some (Machine.fround
            (Machine.literal 0.05
             + Machine.to_number (values !! i) / maxValue * Machine.literal 0.9)%machine).
Proof.
  induction n as [|n IH]; intros Hi Hlen; [lia|].
  rewrite seq_S, foldl_app. cbn [foldl]. unfold Machine.scale_instance at 1.
  destruct (decide (i = n)) as [->|Hne].
  - rewrite list_lookup_insert_eq; [done|]. by rewrite machine_fold_length.
  - rewrite list_lookup_insert_ne by lia. apply IH; [lia | done].
Qed.
End MachineBinder.

Lemma machine_fold_ext (v1 v2 : list Machine.double) (m1 m2 : Machine.double)
    (n : nat) (data : list Machine.double) :
  (∀ i, (i < n)%nat →
     (Machine.to_number (v1 !! i) / m1)%machine
     = (Machine.to_number (v2 !! i) / m2)%machine) →
  foldl (Machine.scale_instance v1 m1) data (seq 0 n)
  = foldl (Machine.scale_instance v2 m2) data (seq 0 n).
Proof.
  induction n as [|n IH]; intros Hext; [done|].
  rewrite seq_S, !foldl_app. cbn [foldl]. unfold Machine.scale_instance at 1 3.
  rewrite IH by (intros i Hi; apply Hext; lia).
  by rewrite Hext by lia.
Qed.

Lemma machine_update_unfold (h : Host) (values : list Machine.double)
    (s : Machine.store) :
  length values = Visualization.barCount →
  Machine.updateInstanceScales h values s
  = let data :=
      foldl (Machine.scale_instance values
               (Machine.largest values (Machine.literal 1)))
            (Machine.instanceData s) (seq 0 Visualization.barCount) in
    (Normal tt, {| Machine.instanceData := data; Machine.instanceBuffer := data |}).
Proof.
  intros Hlen. unfold Machine.updateInstanceScales.
  rewrite decide_True; [done|]. rewrite Hlen.
  pose proof (max_arguments_chart h). unfold Visualization.barCount. lia.
Qed.

Lemma machine_max2_Finite (a b : Qc) :
  Machine.max2 (Machine.Finite a) (Machine.Finite b) = Machine.Finite (qmax a b).
Proof. unfold Machine.max2, qmax. by case_decide. Qed.

Lemma machine_largest_Finite (vs : list Qc) (b : Qc) :
  Machine.largest (Machine.Finite <$> vs) (Machine.Finite b)
  = Machine.Finite (foldr qmax b vs).
Proof.
  unfold Machine.largest.
  induction vs as [|v vs IH]; [done|].
  rewrite fmap_cons. cbn [foldr]. rewrite IH. apply machine_max2_Finite.
Qed.

Lemma literal_one : Machine.literal 1 = Machine.Finite 1.
Proof. double_eq. Qed.

Lemma machine_largest_greatest (vs : list Qc) (m : Qc) :
  greatest m (1 :: vs) →
  Machine.largest (Machine.Finite <$> vs) (Machine.literal 1) = Machine.Finite m.
Proof.
  intros Hm. rewrite literal_one, machine_largest_Finite. f_equal.
  eapply greatest_unique; [apply foldr_qmax_greatest | exact Hm].
Qed.

Lemma machine_div_Finite (a b : Qc) :
  b ≠ 0 →
  (Machine.Finite a / Machine.Finite b)%machine = Machine.round Machine.binary64 (a / b).
Proof. intros Hb. unfold Machine.div. by rewrite decide_False. Qed.

Lemma literal_005 : Machine.literal 0.05 = Machine.Finite double_005.
Proof. double_eq. Qed.

Lemma literal_09 : Machine.literal 0.9 = Machine.Finite double_09.
Proof. double_eq. Qed.

Lemma ratio_unit (v m : Qc) : 0 ≤ v → v ≤ m → 1 ≤ m → 0 ≤ v / m ∧ v / m ≤ 1.
Proof.
  intros Hv Hvm Hm.
  assert (Hpos : 0 < m) by (eapply Qclt_le_trans; [|exact Hm]; done).
  assert (Hinv : 0 ≤ / m) by (apply Qclt_le_weak, Qcinv_pos, Hpos).
  split; [by apply Qcmult_nonneg_nonneg|].
  rewrite <- (Qcmult_inv_r m) by (by apply Qc_pos_ne).
  by apply Qcmult_le_mono_nonneg_r.
Qed.

(** What the binder stores for a ratio between [0] and [1]. *)
Lemma stored_between (x : Qc) :
  0 ≤ x → x ≤ 1 →
  ∃ y, Machine.fround
         (Machine.literal 0.05
          + Machine.round Machine.binary64 x * Machine.literal 0.9)%machine
       = Machine.Finite y
       ∧ single_005 ≤ y ∧ y ≤ single_095.
Proof.
  intros H0 H1.
  destruct (round_between Machine.binary64 ltac:(done) 0 1 x 0 1)
    as (r1 & -> & Hr1lo & Hr1hi); [done|done|done|double_eq|double_eq|].
  rewrite literal_005, literal_09. cbn [Machine.mul].
  destruct (round_between Machine.binary64 ltac:(done) 0 double_09 (r1 * double_09)
              0 double_09) as (r2 & -> & Hr2lo & Hr2hi);
    [done| | |double_eq|double_eq|].
  { apply Qcmult_nonneg_nonneg; done. }
  { rewrite <- (Qcmult_1_l double_09) at 2. by apply Qcmult_le_mono_nonneg_r. }
  cbn [Machine.add].
  destruct (round_between Machine.binary64 ltac:(done) double_005
              (double_005 + double_09) (double_005 + r2) double_005 double_095)
    as (r3 & -> & Hr3lo & Hr3hi); [done| | |double_eq|double_eq|].
  { rewrite <- (Qcplus_0_r double_005) at 1. by apply Qcplus_le_mono_l. }
  { by apply Qcplus_le_mono_l. }
  cbn [Machine.fround].
  destruct (round_between Machine.binary32 ltac:(done) double_005 double_095 r3
              single_005 single_095) as (r4 & -> & Hr4lo & Hr4hi);
    [done|done|done|double_eq|double_eq|].
  by exists r4.
Qed.

(** What the binder stores for the ratio [1]. *)
Lemma stored_full :
  Machine.fround
    (Machine.literal 0.05 + Machine.round Machine.binary64 1 * Machine.literal 0.9)%machine
  = Machine.Finite single_095.
Proof. double_eq. Qed.

(** C6 (as the code has it): for every sequence of [barCount] finite
    non-negative magnitudes, with [m] the greatest of the magnitudes and [1],
    after [updateInstanceScales] every bar's [scale.y] is
    [0.05 + (magnitude / m) * 0.9] as binary64 evaluates it, kept in single
    precision; it lies within [[0.05, 0.95]]; and a bar whose magnitude
    equals [m] has the single-precision number nearest to [0.95],
    [15938355 / 2^24 = 0.949999988...]. *)
Theorem stored_scale_y (h : Host) (vs : list Qc) (m : Qc) (s : Machine.store) :
  length vs = Visualization.barCount →
  (∀ v, v ∈ vs → 0 ≤ v) →
  length (Machine.instanceData s) = (Visualization.barCount * 6)%nat →
  greatest m (1 :: vs) →
  let r := Machine.updateInstanceScales h (Machine.Finite <$> vs) s in
  r.1 = Normal tt
  ∧ Machine.instanceBuffer r.2 = Machine.instanceData r.2
  ∧ ∀ i v, vs !! i = Some v →
      Machine.scale_y (Machine.instanceData r.2) i
      = Machine.fround
          (Machine.literal 0.05
           + Machine.Finite v / Machine.Finite m * Machine.literal 0.9)%machine
      ∧ (∃ y, Machine.scale_y (Machine.instanceData r.2) i = Machine.Finite y
              ∧ Q2Qc 0.05 ≤ y ∧ y ≤ Q2Qc 0.95)
      ∧ (v = m →
         Machine.scale_y (Machine.instanceData r.2) i = Machine.Finite single_095).
Proof.
  intros Hlen Hnonneg Hdata Hm r. subst r.
  rewrite machine_update_unfold by (by rewrite length_fmap).
  cbn [fst snd Machine.instanceData Machine.instanceBuffer].
  split; [reflexivity|]. split; [reflexivity|].
  intros i v Hi.
  assert (Hbar : (i < Visualization.barCount)%nat).
  { rewrite <- Hlen. by eapply lookup_lt_Some. }
  assert (H1m : 1 ≤ m) by (apply Hm; left).
  assert (Hvm : v ≤ m).
  { apply Hm. right. by eapply list_elem_of_lookup_2. }
  assert (H0v : 0 ≤ v) by (apply Hnonneg; by eapply list_elem_of_lookup_2).
  assert (Hm0 : m ≠ 0).
  { apply Qc_pos_ne. eapply Qclt_le_trans; [|exact H1m]. done. }
  assert (Hy : Machine.scale_y
                 (foldl (Machine.scale_instance (Machine.Finite <$> vs)
                           (Machine.largest (Machine.Finite <$> vs) (Machine.literal 1)))
                    (Machine.instanceData s) (seq 0 Visualization.barCount)) i
               = Machine.fround
                   (Machine.literal 0.05
                    + Machine.Finite v / Machine.Finite m * Machine.literal 0.9)%machine).
  { unfold Machine.scale_y. rewrite machine_fold_at; [|done|].
    - by rewrite (machine_largest_greatest _ _ Hm), list_lookup_fmap, Hi.
    - rewrite Hdata. unfold Visualization.barCount in *. lia. }
  rewrite Hy. split; [reflexivity|].
  rewrite machine_div_Finite by done. split.
  - destruct (ratio_unit v m H0v Hvm H1m) as [Hlo Hhi].
    destruct (stored_between (v / m) Hlo Hhi) as (y & -> & Hylo & Hyhi).
    exists y. split; [reflexivity|]. split.
    + transitivity single_005; [qc_le | done].
    + transitivity single_095; [done | qc_le].
  - intros ->. assert (E : m / m = 1) by (by field). rewrite E. apply stored_full.
Qed.

Lemma stored_scale_y_witness :
  let r := Machine.updateInstanceScales sample_host
             (Machine.Finite <$> sample_magnitudes) Machine.started in
  r.1 = Normal tt
  ∧ Machine.scale_y (Machine.instanceData r.2) 9
    = Machine.Finite (Q2Qc (15938355 # 16777216)).
Proof.
  assert (Hnonneg : ∀ v, v ∈ sample_magnitudes → 0 ≤ v).
  { apply (proj1 (list.Forall_forall (λ v, 0 ≤ v) _)).
    unfold sample_magnitudes. repeat constructor; qc_le. }
  destruct (stored_scale_y sample_host sample_magnitudes (Q2Qc 10)
              Machine.started eq_refl Hnonneg eq_refl
              sample_magnitudes_greatest) as (Hret & _ & Hbars).
  split; [exact Hret|].
  destruct (Hbars 9%nat (Q2Qc 10) eq_refl) as (_ & _ & H).
  exact (H eq_refl).
Defined.

(** C6 (as stated) fails: when every magnitude is [0], the first bar's
    magnitude is the maximum of the sequence, and its [scale.y] is
    [13421773 / 2^28 = 0.0500000007...], the single-precision number nearest
    to [0.05]: not [0.95], and not what single precision keeps of [0.95].
    And a magnitude need not be finite: after [Infinity, 1, ..., 1] the first
    bar, whose magnitude is the maximum, has [NaN]. *)
Lemma stored_all_zero_floor :
  let vs := replicate Visualization.barCount (Q2Qc 0) in
  let r := Machine.updateInstanceScales sample_host (Machine.Finite <$> vs)
             Machine.started in
  let unbounded :=
    Machine.updateInstanceScales sample_host
      (Machine.Infinite false :: replicate 9 (Machine.Finite 1)) Machine.started in
  (r.1 = Normal tt
   ∧ greatest (Q2Qc 0) vs
   ∧ vs !! 0%nat = Some (Q2Qc 0)
   ∧ Machine.scale_y (Machine.instanceData r.2) 0
     = Machine.Finite (Q2Qc (13421773 # 268435456))
   ∧ Machine.scale_y (Machine.instanceData r.2) 0 ≠ Machine.Finite (Q2Qc 0.95)
   ∧ Machine.scale_y (Machine.instanceData r.2) 0
     ≠ Machine.fround (Machine.literal 0.95))
  ∧ (unbounded.1 = Normal tt
     ∧ Machine.scale_y (Machine.instanceData unbounded.2) 0 = Machine.Nan).
Proof.
  intros vs r unbounded. split; [|split; reflexivity].
  split; [reflexivity|].
  split; [|split; [reflexivity|]].
  - split; [left|]. intros v Hv. apply elem_of_replicate in Hv as [-> _]. done.
  - split; [double_eq|]. split; vm_compute; intros E; discriminate E.
Qed.

(** *** Rescaling the magnitudes *)

Lemma greatest_rescaled (vs : list Qc) (c m : Qc) :
  greatest m (1 :: vs) → (∃ v, v ∈ vs ∧ 1 ≤ v) → 1 ≤ c →
  greatest (c * m) (1 :: ((λ v, c * v) <$> vs)).
Proof.
  intros [Hin Hle] (v & Hv & H1v) Hc.
  assert (H0c : 0 ≤ c) by (etrans; [|exact Hc]; done).
  assert (H1m : 1 ≤ m) by (apply Hle; left).
  assert (Hmvs : m ∈ vs).
  { apply elem_of_cons in Hin as [E|Hin]; [|done].
    assert (v = m) as <-; [|done].
    apply Qcle_antisym; [apply Hle; by right | by rewrite E]. }
  split.
  - right. by apply (list_elem_of_fmap_2 (λ v, c * v)).
  - intros x Hx. apply elem_of_cons in Hx as [->|Hx].
    + rewrite <- (Qcmult_1_l 1). etrans.
      * apply Qcmult_le_mono_nonneg_r; [done | exact Hc].
      * by apply Qcmult_le_mono_nonneg_l.
    + apply list_elem_of_fmap in Hx as (y & -> & Hy).
      apply Qcmult_le_mono_nonneg_l; [done|]. apply Hle. by right.
Qed.

(** C9 (as the code has it): for every sequence of [barCount] finite
    magnitudes whose maximum is at least [1] and every scalar [c >= 1] whose
    products with the magnitudes are exact in binary64 (a power of two short
    of overflow, for one), [updateInstanceScales] leaves exactly the same
    array, and the same instance buffer, after the element-wise products
    [c * magnitudes] as after the magnitudes themselves. *)
Theorem stored_rescaled (h : Host) (vs : list Qc) (c : Qc) (s : Machine.store) :
  length vs = Visualization.barCount →
  (∃ v, v ∈ vs ∧ 1 ≤ v) →
  1 ≤ c →
  (∀ v, v ∈ vs →
     (Machine.Finite c * Machine.Finite v)%machine = Machine.Finite (c * v)) →
  let plain := Machine.updateInstanceScales h (Machine.Finite <$> vs) s in
  let scaled :=
    Machine.updateInstanceScales h
      (Machine.mul (Machine.Finite c) <$> (Machine.Finite <$> vs)) s in
  plain.1 = Normal tt ∧ scaled = plain.
Proof.
  intros Hlen Hmax Hc Hexact plain scaled. subst plain scaled.
  pose proof (foldr_qmax_greatest vs 1) as Hm.
  pose proof (greatest_rescaled _ _ _ Hm Hmax Hc) as Hcm.
  set (m := foldr qmax 1 vs) in *.
  assert (H1m : 1 ≤ m) by (apply Hm; left).
  assert (Hm0 : m ≠ 0) by (apply Qc_pos_ne; eapply Qclt_le_trans; [|exact H1m]; done).
  assert (Hc0 : c ≠ 0) by (apply Qc_pos_ne; eapply Qclt_le_trans; [|exact Hc]; done).
  assert (Hcm0 : c * m ≠ 0).
  { intros E. apply Qcmult_integral in E as [E|E]; done. }
  assert (Hproducts :
    Machine.mul (Machine.Finite c) <$> (Machine.Finite <$> vs)
    = Machine.Finite <$> ((λ v, c * v) <$> vs)).
  { rewrite <- !list_fmap_compose. apply list_fmap_ext. intros i v Hv. simpl.
    apply Hexact. by eapply list_elem_of_lookup_2. }
  rewrite Hproducts.
  rewrite !machine_update_unfold by (by rewrite !length_fmap).
  split; [reflexivity|].
  assert (E :
    foldl (Machine.scale_instance (Machine.Finite <$> ((λ v, c * v) <$> vs))
             (Machine.largest (Machine.Finite <$> ((λ v, c * v) <$> vs))
                (Machine.literal 1)))
          (Machine.instanceData s) (seq 0 Visualization.barCount)
    = foldl (Machine.scale_instance (Machine.Finite <$> vs)
               (Machine.largest (Machine.Finite <$> vs) (Machine.literal 1)))
            (Machine.instanceData s) (seq 0 Visualization.barCount)).
  { apply machine_fold_ext. intros k _.
    rewrite (machine_largest_greatest _ _ Hm), (machine_largest_greatest _ _ Hcm).
    rewrite !list_lookup_fmap. destruct (vs !! k) as [v|]; [|done].
    cbn [fmap option_fmap option_map Machine.to_number default from_option id].
    rewrite !machine_div_Finite by done. f_equal. by field. }
  cbv zeta. by rewrite E.
Qed.

Lemma stored_rescaled_witness :
  Machine.updateInstanceScales sample_host
    (Machine.mul (Machine.Finite (Q2Qc 2)) <$> (Machine.Finite <$> sample_magnitudes))
    Machine.started
  = Machine.updateInstanceScales sample_host (Machine.Finite <$> sample_magnitudes)
      Machine.started.
Proof.
  apply (stored_rescaled sample_host sample_magnitudes (Q2Qc 2) Machine.started eq_refl).
  - exists (Q2Qc 10). split; [|qc_le]. unfold sample_magnitudes. do 9 right. left.
  - qc_le.
  - apply (proj1 (list.Forall_forall
             (λ v, (Machine.Finite (Q2Qc 2) * Machine.Finite v)%machine
                   = Machine.Finite (Q2Qc 2 * v)) _)).
    unfold sample_magnitudes. repeat constructor; double_eq.
Defined.

(** C9 (as stated) fails: the magnitudes [0.05555556962887447, 1, ..., 1]
    are binary64 numbers and their maximum is [1]; multiplied by [c = 10] in
    binary64 they leave the first bar at [6710887 / 2^26 = 0.1000000089...],
    while the magnitudes themselves leave it at
    [13421775 / 2^27 = 0.1000000163...]. *)
Lemma stored_rescaled_by_ten :
  let v0 := Q2Qc (8006401365726551 # 144115188075855872) in
  let vs := v0 :: replicate 9 (Q2Qc 1) in
  let c := Q2Qc 10 in
  let plain :=
    Machine.updateInstanceScales sample_host (Machine.Finite <$> vs) Machine.started in
  let scaled :=
    Machine.updateInstanceScales sample_host
      (Machine.mul (Machine.Finite c) <$> (Machine.Finite <$> vs)) Machine.started in
  Machine.round Machine.binary64 v0 = Machine.Finite v0
  ∧ length vs = Visualization.barCount
  ∧ greatest (Q2Qc 1) vs
  ∧ 1 ≤ c
  ∧ plain.1 = Normal tt
  ∧ scaled.1 = Normal tt
  ∧ Machine.scale_y (Machine.instanceData plain.2) 0
    = Machine.Finite (Q2Qc (13421775 # 134217728))
  ∧ Machine.scale_y (Machine.instanceData scaled.2) 0
    = Machine.Finite (Q2Qc (6710887 # 67108864))
  ∧ Machine.scale_y (Machine.instanceData scaled.2) 0
    ≠ Machine.scale_y (Machine.instanceData plain.2) 0.
Proof.
  intros v0 vs c plain scaled.
  split; [double_eq|]. split; [reflexivity|]. split.
  { split; [right; left|].
    apply (proj1 (list.Forall_forall (λ v, v ≤ Q2Qc 1) _)).
    subst vs v0. repeat constructor; qc_le. }
  split; [qc_le|].
  split; [reflexivity|]. split; [reflexivity|].
  split; [double_eq|]. split; [double_eq|].
  vm_compute. intros E. discriminate E.
Qed.

(** ** The data source *)

Section Fetch.
Import Visualization.
Context (h : Host).

Lemma set_random_calls_twice (a b : nat) (w : world) :
set_random_calls a (set_random_calls b w) = set_random_calls a w.
Proof. reflexivity. Qed.

Lemma mapM_draws (f : number → number) (x : number) (k : nat) (w : world) :
mapM (λ _ : number, let* r := Math_random h in ret (f r)) (replicate k x) w
= (Normal ((λ j, f (random h (random_calls w + j)%nat)) <$> seq 0 k),
   set_random_calls (random_calls w + k)%nat w).
Proof.
revert w. induction k as [|k IH]; intros w.
- simpl. unfold ret. by rewrite Nat.add_0_r.
- cbn [replicate mapM]. unfold bind at 1. unfold bind at 1.
  unfold Math_random at 1. unfold bind at 1, gets at 1. 
  unfold bind at 1, modify at 1, ret at 1. unfold ret at 1.
  unfold bind at 1. rewrite IH. unfold ret.
  cbn [random_calls set_random_calls].
  f_equal.
  + cbn [seq]. rewrite <- fmap_S_seq, fmap_cons, <- list_fmap_compose.
    rewrite Nat.add_0_r. f_equal. f_equal.
    apply list_fmap_ext. intros i j _. simpl. f_equal. f_equal. lia.
  + rewrite set_random_calls_twice. f_equal. lia.
Qed.

Lemma randomValues_unfold (w : world) :
randomValues h w
= (Normal ((λ j, random h (random_calls w + j)%nat * num 100)%js <$> seq 0 barCount),
   set_random_calls (random_calls w + barCount)%nat w).
Proof. apply (mapM_draws (λ r, r * num 100)%js). Qed.

Lemma values_unfold (usdRate : number) (w : world) :
values h usdRate w
= (Normal ((λ j, usdRate * (num 0.8 + random h (random_calls w + j)%nat * num 0.4))%js
           <$> seq 0 barCount),
   set_random_calls (random_calls w + barCount)%nat w).
Proof. apply (mapM_draws (λ r, usdRate * (num 0.8 + r * num 0.4))%js). Qed.

Lemma fetch_full_fallback (r : fetch_result) (w : world) :
full_fallback r →
fetchDataAndUpdate h r w = (let* rv := randomValues h in updateInstanceScales h rv) w.
Proof.
destruct r as [|[] [|data]]; try reflexivity.
intros [e He]. unfold fetchDataAndUpdate, bind, try_catch, lift, ret.
cbn [full_fallback] in He. by rewrite He.
Qed.

Lemma fetch_synthetic_rate (r : fetch_result) (w : world) :
synthetic_rate h r →
fetchDataAndUpdate h r w
= (let* r0 := Math_random h in
   let* vs := values h (r0 * num 50000)%js in
   updateInstanceScales h vs) w.
Proof.
destruct r as [|[] [|data]]; try done.
intros (text & Ht & Hf). unfold fetchDataAndUpdate, bind, try_catch, lift, ret.
rewrite Ht, Hf. unfold Math_random, bind, gets, modify, ret.
rewrite !values_unfold.
by rewrite update_unfold by (apply accepted_barCount; by rewrite length_fmap, length_seq).
Qed.

Lemma draws_accepted (f : nat → number) : accepted h (f <$> seq 0 barCount).
Proof. apply accepted_barCount. by rewrite length_fmap, length_seq. Qed.

Lemma fetch_returns (r : fetch_result) (w : world) :
(fetchDataAndUpdate h r w).1 = Normal tt.
Proof.
destruct r as [|[] [|data]];
  unfold fetchDataAndUpdate, bind, try_catch, lift, ret, throw;
  try (rewrite randomValues_unfold; by rewrite update_unfold by apply draws_accepted).
destruct (rate_text data) as [text|e];
  [|rewrite randomValues_unfold; by rewrite update_unfold by apply draws_accepted].
destruct (falsy (parse h text));
  unfold Math_random, bind, gets, modify, ret;
  rewrite values_unfold; by rewrite update_unfold by apply draws_accepted.
Qed.

Lemma draw_times_range (r : number) (bound : Qc) :
0 < bound → in_range 0 1 r → in_range 0 bound (r * Fin bound)%js.
Proof.
intros Hb (q & -> & H0 & H1). exists (q * bound). split; [done|]. split.
- apply Qcmult_nonneg_nonneg; [done | by apply Qclt_le_weak].
- rewrite <- (Qcmult_1_l bound) at 2. by apply Qcmult_lt_mono_pos_r.
Qed.

Lemma noisy_rate_range (rate r : number) :
in_range 0 (Q2Qc 50000) rate → in_range 0 1 r →
in_range 0 (Q2Qc 60000) (rate * (num 0.8 + r * num 0.4))%js.
Proof.
intros (a & -> & Ha0 & Ha1) (q & -> & Hq0 & Hq1).
exists (a * (Q2Qc 0.8 + q * Q2Qc 0.4)). split; [done|].
assert (Hf0 : 0 ≤ Q2Qc 0.8 + q * Q2Qc 0.4).
{ apply Qcplus_nonneg_nonneg; [done|]. by apply Qcmult_nonneg_nonneg. }
assert (Hf1 : Q2Qc 0.8 + q * Q2Qc 0.4 ≤ Q2Qc 1.2).
{ assert (E : Q2Qc 1.2 = Q2Qc 0.8 + 1 * Q2Qc 0.4) by (apply Qc_is_canon; reflexivity).
  rewrite E. apply Qcplus_le_mono_l. apply Qcmult_le_mono_nonneg_r; [done|].
  by apply Qclt_le_weak. }
split; [by apply Qcmult_nonneg_nonneg|].
apply Qcle_lt_trans with (a * Q2Qc 1.2).
- by apply Qcmult_le_mono_nonneg_l.
- assert (E : Q2Qc 60000 = Q2Qc 50000 * Q2Qc 1.2) by (apply Qc_is_canon; reflexivity).
  rewrite E. by apply Qcmult_lt_mono_pos_r.
Qed.

End Fetch.

(** C4 (as the code has it): whatever the request comes back with,
    [fetchDataAndUpdate] returns normally.  After a network error, a
    non-success status, a body that is not JSON, or a body on which reading
    the rate throws, it binds [randomValues]: exactly [barCount] magnitudes,
    each in [[0, 100)].  After a successful response whose JSON body yields
    no usable rate ([undefined], [NaN] or [0]) it binds [barCount]
    magnitudes [rate * (0.8 + 0.4 * u)] around a drawn rate in
    [[0, 50000)], each in [[0, 60000)]. *)
Theorem fetch_failure_fallback (h : Host) (r : fetch_result) (w : world) :
  unit_random h →
  (Visualization.fetchDataAndUpdate h r w).1 = Normal tt
  ∧ (full_fallback r →
     ∃ vs,
       Visualization.randomValues h w
         = (Normal vs, set_random_calls (random_calls w + Visualization.barCount)%nat w)
       ∧ length vs = Visualization.barCount
       ∧ Forall (in_range 0 (Q2Qc 100)) vs
       ∧ Visualization.fetchDataAndUpdate h r w
         = Visualization.updateInstanceScales h vs
             (set_random_calls (random_calls w + Visualization.barCount)%nat w))
  ∧ (synthetic_rate h r →
     ∃ rate vs,
       in_range 0 (Q2Qc 50000) rate
       ∧ Visualization.values h rate (set_random_calls (S (random_calls w)) w)
         = (Normal vs,
            set_random_calls (S (random_calls w) + Visualization.barCount)%nat w)
       ∧ length vs = Visualization.barCount
       ∧ Forall (in_range 0 (Q2Qc 60000)) vs
       ∧ Visualization.fetchDataAndUpdate h r w
         = Visualization.updateInstanceScales h vs
             (set_random_calls (S (random_calls w) + Visualization.barCount)%nat w)).
Proof.
  intros Hr. split; [apply fetch_returns|]. split.
  - intros Hfail.
    eexists. split; [apply randomValues_unfold|].
    split; [by rewrite length_fmap, length_seq|]. split.
    + apply Forall_fmap, list.Forall_forall. intros j _. simpl.
      apply (draw_times_range _ (Q2Qc 100)); [done | apply Hr].
    + rewrite (fetch_full_fallback h r w Hfail). unfold bind.
      by rewrite randomValues_unfold.
  - intros Hsyn.
    exists (random h (random_calls w) * num 50000)%js. eexists.
    split; [apply (draw_times_range _ (Q2Qc 50000)); [done | apply Hr]|].
    split; [rewrite values_unfold; reflexivity|].
    split; [by rewrite length_fmap, length_seq|]. split.
    + apply Forall_fmap, list.Forall_forall. intros j _. simpl.
      apply noisy_rate_range; [|apply Hr].
      apply (draw_times_range _ (Q2Qc 50000)); [done | apply Hr].
    + rewrite (fetch_synthetic_rate h r w Hsyn).
      unfold Math_random, bind, gets, modify, ret.
      by rewrite values_unfold.
Qed.

Lemma sample_host_unit_random : unit_random sample_host.
Proof. intros n. exists (Q2Qc 0.5). split; [reflexivity|]. split; [qc_le|reflexivity]. Qed.

Lemma fetch_failure_fallback_witness :
  (Visualization.fetchDataAndUpdate sample_host NetworkError started).1 = Normal tt
  ∧ ∃ vs,
      length vs = Visualization.barCount
      ∧ Forall (in_range 0 (Q2Qc 100)) vs
      ∧ Visualization.fetchDataAndUpdate sample_host NetworkError started
        = Visualization.updateInstanceScales sample_host vs (set_random_calls 10 started).
Proof.
  destruct (fetch_failure_fallback sample_host NetworkError started
              sample_host_unit_random) as (Hok & Hfail & _).
  split; [exact Hok|].
  destruct (Hfail I) as (vs & _ & Hlen & Hrange & Hbind).
  exists vs. split; [exact Hlen|]. split; [exact Hrange|]. exact Hbind.
Defined.

Lemma fetch_empty_object_at (w : world) :
  let r := Response true (Parsed (JObject [])) in
  let rate := (random sample_host (random_calls w) * num 50000)%js in
  let vs :=
    replicate Visualization.barCount (rate * (num 0.8 + num 0.5 * num 0.4))%js in
  let w' := set_random_calls (S (random_calls w) + Visualization.barCount)%nat w in
  Visualization.values sample_host rate (set_random_calls (S (random_calls w)) w)
  = (Normal vs, w')
  ∧ Visualization.fetchDataAndUpdate sample_host r w
    = Visualization.updateInstanceScales sample_host vs w'.
Proof.
  intros r rate vs w'.
  assert (Hsyn : synthetic_rate sample_host r) by (exists None; split; reflexivity).
  split.
  - rewrite values_unfold. reflexivity.
  - rewrite (fetch_synthetic_rate sample_host r w Hsyn).
    unfold Math_random, bind, gets, modify, ret. rewrite values_unfold. reflexivity.
Qed.

(** C4 (as stated) fails: a successful response whose body is the JSON
    object [{}] is not a well-formed one, and on it the adapter binds ten
    magnitudes equal to [25000] when every draw is [0.5]. *)
Lemma fetch_empty_object_magnitudes :
  let r := Response true (Parsed (JObject [])) in
  let rate := (random sample_host (random_calls started) * num 50000)%js in
  let vs :=
    replicate Visualization.barCount (rate * (num 0.8 + num 0.5 * num 0.4))%js in
  let w' :=
    set_random_calls (S (random_calls started) + Visualization.barCount)%nat started in
  synthetic_rate sample_host r
  ∧ Visualization.values sample_host rate
      (set_random_calls (S (random_calls started)) started)
    = (Normal vs, w')
  ∧ Visualization.fetchDataAndUpdate sample_host r started
    = Visualization.updateInstanceScales sample_host vs w'
  ∧ Forall (λ v, v = num 25000) vs
  ∧ ¬ in_range 0 (Q2Qc 100) (num 25000).
Proof.
  intros r rate vs w'.
  destruct (fetch_empty_object_at started) as [Hvalues Hbind].
  split; [exists None; split; reflexivity|].
  split; [exact Hvalues|]. split; [exact Hbind|]. split.
  - subst vs. apply Forall_replicate. subst rate. number_eq.
  - intros (q & E & _ & Hlt). injection E as <-.
    vm_compute in Hlt. discriminate Hlt.
Qed.

(** ** The render loops *)

Ltac unfold_js :=
  unfold bind, gets, modify, writeBuffer, emit, register, ret, throw;
  cbn -[Viewer.multiply Viewer.perspective Viewer.lookAt Viewer.rotateY
        Visualization.multiply Visualization.perspective Visualization.lookAt
        Visualization.initial_instanceData].

Ltac unfold_js_in H :=
  unfold bind, gets, modify, writeBuffer, emit, register, ret, throw in H;
  cbn -[Viewer.multiply Viewer.perspective Viewer.lookAt Viewer.rotateY
        Visualization.multiply Visualization.perspective Visualization.lookAt
        Visualization.initial_instanceData] in H.

Ltac log_cases H :=
  repeat (apply elem_of_app in H as [H|H]);
  try (apply list_elem_of_singleton in H;
       first [discriminate H | injection H as H; subst]).

Lemma texture_fresh (t : texture) (width height : nat) :
  ¬ (t.1 ≠ width ∨ t.2 ≠ height) → t = (width, height).
Proof.
  destruct t as [tw th]. simpl. intros Hfresh.
  destruct (decide (tw = width)) as [->|]; [|exfalso; apply Hfresh; by left].
  destruct (decide (th = height)) as [->|]; [done|exfalso; apply Hfresh; by right].
Qed.

(** *** viewer.js keeps the depth attachment at the size of the canvas *)

Lemma viewer_frame_passes (h : Host) (time : number) (w : world) :
  passes_fit (device_log w) → passes_fit (device_log (Viewer.frame h time w).2).
Proof.
  intros Hfit p Hp. unfold Viewer.frame in Hp. unfold_js_in Hp.
  destruct (decide _) as [Hstale|Hfresh] in Hp; unfold_js_in Hp; log_cases Hp; auto.
  simpl. by apply texture_fresh.
Qed.

Lemma viewer_resize_passes (h : Host) (w : world) :
  passes_fit (device_log w) → passes_fit (device_log (Viewer.resizeCanvas h w).2).
Proof.
  intros Hfit p Hp. unfold Viewer.resizeCanvas in Hp. unfold_js_in Hp.
  log_cases Hp; auto.
Qed.

Lemma viewer_handle_passes (h : Host) (w : world) (ev : event) :
  passes_fit (device_log w) → passes_fit (device_log (Viewer.handle h w ev)).
Proof.
  intros Hfit. destruct ev as [cw ch|time| |r]; simpl; try done.
  - case_decide; [|done]. by apply viewer_resize_passes.
  - case_decide; [|done]. by apply viewer_frame_passes.
Qed.

Lemma viewer_run_passes (h : Host) (evs : list event) (w : world) :
  passes_fit (device_log w) → passes_fit (device_log (Viewer.run h evs w)).
Proof.
  revert w. induction evs as [|ev evs IH]; intros w Hfit; [done|].
  simpl. apply IH. by apply viewer_handle_passes.
Qed.

Lemma viewer_main_passes (h : Host) (w : world) :
  passes_fit (device_log w) → passes_fit (device_log (Viewer.main h w).2).
Proof.
  intros Hfit p Hp.
  unfold Viewer.main, Viewer.initWebGPU, try_catch, Viewer.resizeCanvas in Hp.
  destruct (gpu h); unfold_js_in Hp; log_cases Hp; auto.
Qed.

(** In viewer.js the claim of C5 holds: whatever the host delivers after
    start-up, every pass is recorded with a depth attachment of the size the
    canvas has at that moment. *)
Lemma viewer_depth_fits (h : Host) (message canvas : string)
    (cw ch width height : nat) (evs : list event) :
  passes_fit
    (device_log
       (Viewer.run h evs
          (Viewer.main h (page_loaded message canvas cw ch width height)).2)).
Proof.
  apply viewer_run_passes, viewer_main_passes.
  intros p Hp. by apply elem_of_nil in Hp.
Qed.

(** C5 (code defect, visualization.js): after the canvas goes from 300 x 150
    to 600 x 300, the next frame of the chart records its pass on a
    600 x 300 target with the 300 x 150 depth texture made at start-up;
    [frame] never looks at the size of [depthTexture]. *)
Theorem chart_depth_stale_after_resize :
  (canvas_width resized, canvas_height resized) = (600, 300)%nat
  ∧ depthTexture resized = (300, 150)%nat
  ∧ ∃ p, list.last (device_log resized) = Some (Submit p)
         ∧ pass_target p = (600, 300)%nat
         ∧ pass_depth p = (300, 150)%nat.
Proof.
  split; [vm_compute; reflexivity|]. split; [vm_compute; reflexivity|].
  eexists. split; [vm_compute; reflexivity|]. split; reflexivity.
Qed.

(** *** Without a GPU nothing is set up *)

Lemma viewer_idle_handle (h : Host) (w : world) (ev : event) :
  callbacks w = [] →
  callbacks (Viewer.handle h w ev) = []
  ∧ device_log (Viewer.handle h w ev) = device_log w.
Proof.
  intros Hidle.
  destruct ev as [cw ch|time| |r]; unfold Viewer.handle; try done.
  - change (callbacks (set_client cw ch w)) with (callbacks w).
    rewrite decide_False; [done|]. rewrite Hidle. apply not_elem_of_nil.
  - rewrite decide_False; [done|]. rewrite Hidle. apply not_elem_of_nil.
Qed.

Lemma viewer_idle_run (h : Host) (evs : list event) (w : world) :
  callbacks w = [] → device_log (Viewer.run h evs w) = device_log w.
Proof.
  revert w. induction evs as [|ev evs IH]; intros w Hidle; [done|].
  destruct (viewer_idle_handle h w ev Hidle) as [Hcb Hlog].
  simpl. by rewrite IH, Hlog.
Qed.

Lemma chart_idle_handle (h : Host) (w : world) (ev : event) :
  callbacks w = [] →
  callbacks (Visualization.handle h w ev) = []
  ∧ device_log (Visualization.handle h w ev) = device_log w.
Proof.
  intros Hidle. destruct ev as [cw ch|time| |r]; unfold Visualization.handle.
  - change (callbacks (set_client cw ch w)) with (callbacks w).
    rewrite decide_False; [done|]. rewrite Hidle. apply not_elem_of_nil.
  - rewrite decide_False; [done|]. rewrite Hidle. apply not_elem_of_nil.
  - rewrite decide_False; [done|]. rewrite Hidle. apply not_elem_of_nil.
  - rewrite decide_False; [done|]. rewrite Hidle. apply not_elem_of_nil.
Qed.

Lemma chart_idle_run (h : Host) (evs : list event) (w : world) :
  callbacks w = [] → device_log (Visualization.run h evs w) = device_log w.
Proof.
  revert w. induction evs as [|ev evs IH]; intros w Hidle; [done|].
  destruct (chart_idle_handle h w ev Hidle) as [Hcb Hlog].
  simpl. by rewrite IH, Hlog.
Qed.

(** When [navigator.gpu] is absent, [initVisualization] and [initWebGPU]
    show the message, hide the canvas and return normally; they register no
    callback, and whatever the host delivers afterwards nothing ever reaches
    the device: no buffer or pipeline is created and no pass is submitted. *)
Lemma no_gpu_no_rendering (h : Host) (message canvas : string)
    (cw ch width height : nat) (evs : list event) :
  gpu h = NoGpu →
  let page := page_loaded message canvas cw ch width height in
  let chart := Visualization.initVisualization h page in
  let cube := Viewer.initWebGPU h page in
  (chart.1 = Normal tt
   ∧ message_display chart.2 = "block"
   ∧ canvas_display chart.2 = "none"
   ∧ callbacks chart.2 = []
   ∧ device_log (Visualization.run h evs chart.2) = [])
  ∧ (cube.1 = Normal tt
     ∧ message_display cube.2 = "block"
     ∧ canvas_display cube.2 = "none"
     ∧ callbacks cube.2 = []
     ∧ device_log (Viewer.run h evs cube.2) = []).
Proof.
  intros Hgpu page chart cube. subst chart cube.
  unfold Visualization.initVisualization, Viewer.initWebGPU. rewrite Hgpu.
  split.
  - repeat (split; [reflexivity|]). by rewrite chart_idle_run.
  - repeat (split; [reflexivity|]). by rewrite viewer_idle_run.
Qed.

(** C7 (code defect): the two start-up functions look for [navigator.gpu]
    only.  In a browser that has it but finds no adapter,
    [requestAdapter()] resolves to [null] and [adapter.requestDevice()]
    throws: the message stays hidden and the canvas stays shown, as the page
    was loaded, while the same page in a browser without [navigator.gpu]
    shows the message and hides the canvas. *)
Theorem no_adapter_no_fallback :
  let chart := Visualization.initVisualization no_adapter_host sample_page in
  let cube := Viewer.initWebGPU no_adapter_host sample_page in
  (chart.1 = Throw TypeError
   ∧ message_display chart.2 = "none"
   ∧ canvas_display chart.2 = "block"
   ∧ Visualization.main no_adapter_host sample_page = (Normal tt, sample_page))
  ∧ (cube.1 = Throw TypeError
     ∧ message_display cube.2 = "none"
     ∧ canvas_display cube.2 = "block"
     ∧ Viewer.main no_adapter_host sample_page = (Normal tt, sample_page))
  ∧ message_display (Visualization.initVisualization no_gpu_host sample_page).2
    = "block"
  ∧ canvas_display (Visualization.initVisualization no_gpu_host sample_page).2
    = "none".
Proof. repeat split; reflexivity. Qed.

(** *** The chart before any data has arrived *)

Lemma passes_app (l1 l2 : list command) : passes (l1 ++ l2) = passes l1 ++ passes l2.
Proof.
  induction l1 as [|c l1 IH]; [done|]. destruct c; simpl; by rewrite ?IH.
Qed.

Lemma initial_scale_y (i : nat) :
  (i < Visualization.barCount)%nat →
  Visualization.scale_y Visualization.initial_instanceData i = num 0.5.
Proof.
  unfold Visualization.barCount. intros Hi.
  do 10 (destruct i as [|i]; [number_eq|]). lia.
Qed.

Lemma chart_main_waiting (h : Host) (message canvas : string)
    (cw ch width height : nat) :
  gpu h = GpuReady →
  let w := (Visualization.main h (page_loaded message canvas cw ch width height)).2 in
  chart_waiting w ∧ passes (device_log w) = [].
Proof.
  intros Hgpu w. subst w.
  unfold Visualization.main, Visualization.initVisualization, try_catch,
    Visualization.resizeCanvas.
  rewrite Hgpu. unfold_js. split; [|reflexivity].
  split; [reflexivity|]. split; [reflexivity|]. left.
Qed.

Lemma chart_frame_waiting (h : Host) (w : world) :
  chart_waiting w →
  let w' :=
    (Visualization.frame h
       (set_callbacks (remove_one FrameCallback (callbacks w)) w)).2 in
  chart_waiting w'
  ∧ ∃ p, passes (device_log w') = passes (device_log w) ++ [p]
         ∧ pass_instances p = Visualization.initial_instanceData
         ∧ pass_instance_count p = Visualization.barCount.
Proof.
  intros (Hdata & Hmem & Hcb) w'. subst w'.
  unfold Visualization.frame. unfold_js. split.
  - split; [exact Hdata|]. split; [exact Hmem|]. left.
  - eexists. rewrite !passes_app. simpl. rewrite !app_nil_r.
    split; [reflexivity|]. split; [exact Hmem | reflexivity].
Qed.

Lemma chart_handle_waiting (h : Host) (w : world) (ev : event) :
  is_settled ev = false → chart_waiting w →
  chart_waiting (Visualization.handle h w ev)
  ∧ ∃ new, passes (device_log (Visualization.handle h w ev))
           = passes (device_log w) ++ new
           ∧ length new = frames [ev]
           ∧ ∀ p, p ∈ new →
               pass_instances p = Visualization.initial_instanceData
               ∧ pass_instance_count p = Visualization.barCount.
Proof.
  intros Hev Hwait. pose proof Hwait as (Hdata & Hmem & Hcb).
  assert (Hnone : ∀ p : pass, p ∈ [] →
            pass_instances p = Visualization.initial_instanceData
            ∧ pass_instance_count p = Visualization.barCount)
    by (intros p Hp; by apply elem_of_nil in Hp).
  destruct ev as [cw ch|time| |r]; [| | |discriminate Hev];
    unfold Visualization.handle.
  - change (callbacks (set_client cw ch w)) with (callbacks w).
    case_decide.
    + unfold Visualization.resizeCanvas. unfold_js. split; [done|].
      exists []. rewrite passes_app. simpl. by rewrite !app_nil_r.
    + split; [done|]. exists []. by rewrite app_nil_r.
  - rewrite decide_True by done.
    destruct (chart_frame_waiting h w Hwait) as (Hwait' & p & Hp & Hinst & Hcount).
    split; [exact Hwait'|]. exists [p]. split; [exact Hp|]. split; [done|].
    intros q Hq. by apply list_elem_of_singleton in Hq as ->.
  - case_decide.
    + unfold_js. split; [|exists []; by rewrite app_nil_r].
      split; [exact Hdata|]. split; [exact Hmem|]. by right.
    + split; [done|]. exists []. by rewrite app_nil_r.
Qed.

Lemma chart_run_waiting (h : Host) (evs : list event) (w : world) :
  Forall (λ ev, is_settled ev = false) evs → chart_waiting w →
  ∃ new, passes (device_log (Visualization.run h evs w))
         = passes (device_log w) ++ new
         ∧ length new = frames evs
         ∧ ∀ p, p ∈ new →
             pass_instances p = Visualization.initial_instanceData
             ∧ pass_instance_count p = Visualization.barCount.
Proof.
  intros Hevs. revert w. induction Hevs as [|ev evs Hev _ IH]; intros w Hwait.
  - exists []. split; [by rewrite app_nil_r|]. split; [done|].
    intros p Hp. by apply elem_of_nil in Hp.
  - destruct (chart_handle_waiting h w ev Hev Hwait)
      as (Hwait' & new1 & Hlog1 & Hlen1 & Hnew1).
    destruct (IH _ Hwait') as (new2 & Hlog2 & Hlen2 & Hnew2).
    exists (new1 ++ new2). simpl. rewrite Hlog2, Hlog1, app_assoc.
    split; [done|]. split.
    + rewrite length_app, Hlen1, Hlen2. unfold frames. simpl.
      by destruct (is_frame ev).
    + intros p Hp. apply elem_of_app in Hp as [Hp|Hp]; auto.
Qed.

(** C10: at start-up every one of the [barCount] instance records gets
    [scale.y = 0.5]; and as long as no fetch has settled, every animation
    frame the host delivers is rendered, each pass drawing [barCount]
    instances whose [scale.y] is [0.5]. *)
Theorem chart_initial_heights (h : Host) (message canvas : string)
    (cw ch width height : nat) (evs : list event) :
  gpu h = GpuReady →
  Forall (λ ev, is_settled ev = false) evs →
  let w0 := (Visualization.main h (page_loaded message canvas cw ch width height)).2 in
  let w := Visualization.run h evs w0 in
  (∀ i, (i < Visualization.barCount)%nat →
     Visualization.scale_y (instanceData w0) i = num 0.5)
  ∧ length (passes (device_log w)) = frames evs
  ∧ ∀ p, p ∈ passes (device_log w) →
      pass_instance_count p = Visualization.barCount
      ∧ ∀ i, (i < Visualization.barCount)%nat →
          Visualization.scale_y (pass_instances p) i = num 0.5.
Proof.
  intros Hgpu Hevs w0 w.
  destruct (chart_main_waiting h message canvas cw ch width height Hgpu)
    as [Hwait Hnone].
  fold w0 in Hwait, Hnone.
  destruct (chart_run_waiting h evs w0 Hevs Hwait) as (new & Hlog & Hlen & Hnew).
  fold w in Hlog. rewrite Hnone in Hlog. simpl in Hlog.
  split.
  - intros i Hi. destruct Hwait as (-> & _). by apply initial_scale_y.
  - rewrite Hlog. split; [exact Hlen|].
    intros p Hp. destruct (Hnew p Hp) as [Hinst Hcount].
    split; [exact Hcount|]. intros i Hi. rewrite Hinst. by apply initial_scale_y.
Qed.

Lemma chart_initial_heights_witness :
  let w := Visualization.run sample_host
             [AnimationFrame (num 16); Resize 600 300; AnimationFrame (num 33)]
             started in
  length (passes (device_log w)) = 2%nat
  ∧ ∀ p, p ∈ passes (device_log w) →
      Visualization.scale_y (pass_instances p) 0 = num 0.5.
Proof.
  intros w. subst w. unfold started, sample_page.
  assert (Hevs : Forall (λ ev, is_settled ev = false)
                   [AnimationFrame (num 16); Resize 600 300; AnimationFrame (num 33)])
    by (repeat constructor).
  destruct (chart_initial_heights sample_host "none" "block" 300 150 300 150 _ eq_refl Hevs)
    as (_ & Hlen & Hpasses).
  split; [exact Hlen|].
  intros p Hp. apply Hpasses in Hp as [_ Hy]. apply Hy.
  unfold Visualization.barCount. lia.
Defined.

(** * Further properties of the code *)

(** ** Matrices as transforms *)

Ltac matrix_eval :=
  cbv beta iota zeta delta
    [Viewer.multiply Viewer.multiply_body Visualization.multiply Viewer.rotateY
     identity4 el
     foldl seq Float32Array replicate insert list_insert get to_number
     lookup list_lookup fmap list_fmap mat4_mul_vec4 nadd nsub nmul lift2 nneg
     Nat.add from_option id num].

Ltac explode l :=
  repeat (let x := fresh "x" in destruct l as [|x l]; [discriminate|]);
  destruct l; [|discriminate].

Ltac entries_by_ring :=
  repeat match goal with |- _ :: _ = _ :: _ => f_equal end;
  try reflexivity; apply (f_equal Fin); ring.

(** X1: the matrix [multiply(a, b)] of viewer.js, applied by the vertex stage
    to a vector, is [a] applied to the result of [b]: the rightmost factor
    acts first. *)
Theorem viewer_multiply_composes (a b v : list Qc) :
  length a = 16%nat → length b = 16%nat → length v = 4%nat →
  mat4_mul_vec4 (Viewer.multiply (Fin <$> a) (Fin <$> b)) (Fin <$> v)
  = mat4_mul_vec4 (Fin <$> a) (mat4_mul_vec4 (Fin <$> b) (Fin <$> v)).
Proof.
  intros Ha Hb Hv. explode a. explode b. explode v.
  matrix_eval. entries_by_ring.
Qed.

Lemma viewer_multiply_composes_witness :
  mat4_mul_vec4 (Viewer.multiply (Fin <$> sample_qs 16) (Fin <$> sample_qs 16))
                (Fin <$> sample_qs 4)
  = mat4_mul_vec4 (Fin <$> sample_qs 16)
                  (mat4_mul_vec4 (Fin <$> sample_qs 16) (Fin <$> sample_qs 4)).
Proof.
  apply (viewer_multiply_composes (sample_qs 16) (sample_qs 16) (sample_qs 4));
    reflexivity.
Defined.

(** X2: the matrix [multiply(a, b)] of visualization.js acts the other way
    round: applied to a vector it is [b] applied to the result of [a], so
    [multiply(proj, view)] projects first and moves to view space after. *)
Theorem chart_multiply_composes (a b v : list Qc) :
  length a = 16%nat → length b = 16%nat → length v = 4%nat →
  mat4_mul_vec4 (Visualization.multiply (Fin <$> a) (Fin <$> b)) (Fin <$> v)
  = mat4_mul_vec4 (Fin <$> b) (mat4_mul_vec4 (Fin <$> a) (Fin <$> v)).
Proof.
  intros Ha Hb Hv. explode a. explode b. explode v.
  matrix_eval. entries_by_ring.
Qed.

Lemma chart_multiply_composes_witness :
  mat4_mul_vec4 (Visualization.multiply (Fin <$> sample_qs 16) (Fin <$> sample_qs 16))
                (Fin <$> sample_qs 4)
  = mat4_mul_vec4 (Fin <$> sample_qs 16)
                  (mat4_mul_vec4 (Fin <$> sample_qs 16) (Fin <$> sample_qs 4)).
Proof.
  apply (chart_multiply_composes (sample_qs 16) (sample_qs 16) (sample_qs 4));
    reflexivity.
Defined.

(** X3: both [multiply] are associative on matrices of sixteen numbers. *)
Theorem multiply_assoc (a b c : list Qc) :
  length a = 16%nat → length b = 16%nat → length c = 16%nat →
  Viewer.multiply (Viewer.multiply (Fin <$> a) (Fin <$> b)) (Fin <$> c)
  = Viewer.multiply (Fin <$> a) (Viewer.multiply (Fin <$> b) (Fin <$> c))
  ∧ Visualization.multiply (Visualization.multiply (Fin <$> a) (Fin <$> b)) (Fin <$> c)
    = Visualization.multiply (Fin <$> a) (Visualization.multiply (Fin <$> b) (Fin <$> c)).
Proof.
  intros Ha Hb Hc. explode a. explode b. explode c.
  split; matrix_eval; entries_by_ring.
Qed.

Lemma multiply_assoc_witness :
  Viewer.multiply (Viewer.multiply (Fin <$> sample_qs 16) (Fin <$> sample_qs 16))
                  (Fin <$> sample_qs 16)
  = Viewer.multiply (Fin <$> sample_qs 16)
      (Viewer.multiply (Fin <$> sample_qs 16) (Fin <$> sample_qs 16)).
Proof.
  apply (multiply_assoc (sample_qs 16) (sample_qs 16) (sample_qs 16)); reflexivity.
Defined.

(** X4: the identity matrix is neutral for both [multiply], on either side. *)
Theorem multiply_identity (a : list Qc) :
  length a = 16%nat →
  Viewer.multiply identity4 (Fin <$> a) = Fin <$> a
  ∧ Viewer.multiply (Fin <$> a) identity4 = Fin <$> a
  ∧ Visualization.multiply identity4 (Fin <$> a) = Fin <$> a
  ∧ Visualization.multiply (Fin <$> a) identity4 = Fin <$> a.
Proof.
  intros Ha. explode a.
  repeat split; matrix_eval; entries_by_ring.
Qed.

Lemma multiply_identity_witness :
  Viewer.multiply identity4 (Fin <$> sample_qs 16) = Fin <$> sample_qs 16
  ∧ Visualization.multiply (Fin <$> sample_qs 16) identity4 = Fin <$> sample_qs 16.
Proof.
  destruct (multiply_identity (sample_qs 16) eq_refl) as (Hl & _ & _ & Hr).
  split; [exact Hl | exact Hr].
Defined.

(** X5: [rotateY(matrix, angle)] turns the first and third columns of the
    matrix into each other by the cosine and the sine of the angle and
    leaves the second column and the fourth, the translation, as they are. *)
Theorem rotateY_columns (M : Math) (a : list Qc) (angle : number) (c s : Qc) :
  length a = 16%nat → cos M angle = Fin c → sin M angle = Fin s →
  let r := Viewer.rotateY M (Fin <$> a) angle in
  ∀ i, (i < 4)%nat →
    get r i = Fin (el a i * c - el a (i + 8) * s)
    ∧ get r (i + 4) = Fin (el a (i + 4))
    ∧ get r (i + 8) = Fin (el a i * s + el a (i + 8) * c)
    ∧ get r (i + 12) = Fin (el a (i + 12)).
Proof.
  intros Ha Hc Hs r i Hi. subst r. explode a.
  unfold Viewer.rotateY. rewrite Hc, Hs.
  do 4 (destruct i as [|i];
        [repeat split; matrix_eval; apply (f_equal Fin); ring|]).
  lia.
Qed.

Lemma rotateY_columns_witness :
  get (Viewer.rotateY sample_math (Fin <$> sample_qs 16) (num 0.5)) 5
  = Fin (el (sample_qs 16) 5).
Proof.
  destruct (rotateY_columns sample_math (sample_qs 16) (num 0.5)
              (Q2Qc 1) (Q2Qc 0.5) eq_refl eq_refl eq_refl 1%nat) as (_ & Hy & _).
  - lia.
  - exact Hy.
Defined.

(** *** The projection between its planes *)







(** ** More on the instance binder *)

Lemma max2_NaN_r (x : number) : max2 x NaN = NaN.
Proof. by destruct x. Qed.

Lemma largest_NaN (values : list number) (last : number) :
  NaN ∈ values → Visualization.largest values last = NaN.
Proof.
  unfold Visualization.largest.
  induction values as [|v values IH]; intros Hin.
  - by apply elem_of_nil in Hin.
  - apply elem_of_cons in Hin as [<-|Hin]; [done|].
    simpl. rewrite IH by done. apply max2_NaN_r.
Qed.

Lemma ndiv_NaN_r (x : number) : (x / NaN)%js = NaN.
Proof. by destruct x. Qed.

(** X8: one [NaN] anywhere in the magnitudes, also past the first
    [barCount], makes [updateInstanceScales] write [NaN] into the [scale.y]
    of every bar, for every sequence the engine takes as the arguments of
    [Math.max]. *)
Theorem bind_NaN_spreads (h : Host) (values : list number) (w : world) :
  accepted h values →
  NaN ∈ values →
  length (instanceData w) = (Visualization.barCount * 6)%nat →
  ∀ i, (i < Visualization.barCount)%nat →
    Visualization.scale_y
      (instanceData (Visualization.updateInstanceScales h values w).2) i = NaN.
Proof.
  intros Hok Hnan Hlen i Hi.
  rewrite update_scale_y by done.
  by rewrite (largest_NaN _ _ Hnan), ndiv_NaN_r.
Qed.

Lemma bind_NaN_spreads_witness :
  Visualization.scale_y
    (instanceData
       (Visualization.updateInstanceScales sample_host
          (replicate 10 (num 1) ++ [NaN]) started).2) 0 = NaN.
Proof.
  apply (bind_NaN_spreads sample_host (replicate 10 (num 1) ++ [NaN]) started).
  - reflexivity.
  - apply elem_of_app. right. left.
  - reflexivity.
  - unfold Visualization.barCount. lia.
Defined.

Lemma scale_instance_eq (values : list number) (maxValue : number)
    (data : list number) (i : nat) :
  Visualization.scale_instance values maxValue data i
  = <[(i * 6 + 4)%nat :=
        (num 0.05 + to_number (values !! i) / maxValue * num 0.9)%js]> data.
Proof. reflexivity. Qed.

Lemma scale_fold_insert (values : list number) (maxValue : number) (n : nat)
    (data : list number) (k : nat) (x : number) :
  (∀ i, (i < n)%nat → k ≠ (i * 6 + 4)%nat) →
  foldl (Visualization.scale_instance values maxValue) (<[k := x]> data) (seq 0 n)
  = <[k := x]> (foldl (Visualization.scale_instance values maxValue) data (seq 0 n)).
Proof.
  induction n as [|n IH]; intros Hk; [done|].
  rewrite seq_S, !foldl_app. simpl. rewrite !scale_instance_eq.
  rewrite IH by (intros i Hi; apply Hk; lia).
  apply list_insert_insert_ne. intros E. apply (Hk n); lia.
Qed.

Lemma scale_fold_overwrite (v v' : list number) (m m' : number) (n : nat)
    (data : list number) :
  foldl (Visualization.scale_instance v m)
        (foldl (Visualization.scale_instance v' m') data (seq 0 n)) (seq 0 n)
  = foldl (Visualization.scale_instance v m) data (seq 0 n).
Proof.
  induction n as [|n IH]; [done|].
  rewrite seq_S, !foldl_app. simpl.
  rewrite !scale_instance_eq.
  rewrite scale_fold_insert by (intros i Hi; lia).
  by rewrite list_insert_insert_eq, IH.
Qed.

(** X9: the last writer wins: binding [first], whatever it is, and then a
    [second] the engine takes leaves the array and the instance buffer
    exactly as binding [second] alone does; nothing of an earlier update
    survives a later one. *)
Theorem bind_last_writer_wins (h : Host) (first second : list number) (w : world) :
  accepted h second →
  let twice :=
    (Visualization.updateInstanceScales h second
       (Visualization.updateInstanceScales h first w).2).2 in
  let once := (Visualization.updateInstanceScales h second w).2 in
  instanceData twice = instanceData once
  ∧ memory twice InstanceBuffer = memory once InstanceBuffer.
Proof.
  intros Hok twice once. subst twice once.
  assert (E : instanceData
                (Visualization.updateInstanceScales h second
                   (Visualization.updateInstanceScales h first w).2).2
              = instanceData (Visualization.updateInstanceScales h second w).2).
  { destruct (decide (accepted h first)) as [Hfirst|Hfirst].
    - rewrite !update_instanceData by done. apply scale_fold_overwrite.
    - by rewrite (update_rejected h first w Hfirst). }
  split; [exact E|]. by rewrite !update_memory.
Qed.

Lemma bind_last_writer_wins_witness :
  let first := Fin <$> sample_magnitudes in
  let second := replicate 10 (num 7) in
  instanceData
    (Visualization.updateInstanceScales sample_host second
       (Visualization.updateInstanceScales sample_host first started).2).2
  = instanceData (Visualization.updateInstanceScales sample_host second started).2.
Proof.
  intros first second.
  assert (Hok : accepted sample_host second) by reflexivity.
  exact (proj1 (bind_last_writer_wins sample_host first second started Hok)).
Defined.

(** ** The chart, whatever the host delivers *)

Lemma fetch_is_bind (h : Host) (r : fetch_result) (w : world) :
  ∃ vs k,
    accepted h vs
    ∧ Visualization.fetchDataAndUpdate h r w
      = Visualization.updateInstanceScales h vs (set_random_calls k w).
Proof.
  assert (Hfallback :
    ∃ vs k,
      accepted h vs
      ∧ (let* rv := Visualization.randomValues h in
         Visualization.updateInstanceScales h rv) w
        = Visualization.updateInstanceScales h vs (set_random_calls k w)).
  { unfold bind. rewrite randomValues_unfold.
    exists ((λ j, random h (random_calls w + j)%nat * num 100)%js
            <$> seq 0 Visualization.barCount),
           (random_calls w + Visualization.barCount)%nat.
    split; [apply draws_accepted | done]. }
  destruct r as [|[] [|data]]; try exact Hfallback.
  unfold Visualization.fetchDataAndUpdate, bind, try_catch, lift, ret, throw.
  destruct (Visualization.rate_text data) as [text|e]; [|exact Hfallback].
  destruct (falsy (Visualization.parse h text));
    unfold Math_random, bind, gets, modify, ret; rewrite values_unfold;
    rewrite update_unfold by apply draws_accepted.
  - exists ((λ j, random h (random_calls w) * num 50000
                  * (num 0.8 + random h (S (random_calls w) + j)%nat * num 0.4))%js
            <$> seq 0 Visualization.barCount),
           (S (random_calls w) + Visualization.barCount)%nat.
    split; [apply draws_accepted|].
    by rewrite update_unfold by apply draws_accepted.
  - exists ((λ j, Visualization.parse h text
                  * (num 0.8 + random h (random_calls w + j)%nat * num 0.4))%js
            <$> seq 0 Visualization.barCount),
           (random_calls w + Visualization.barCount)%nat.
    split; [apply draws_accepted|].
    by rewrite update_unfold by apply draws_accepted.
Qed.

Lemma remove_one_other (cb x : callback) (l : list callback) :
  x ≠ cb → x ∈ l → x ∈ remove_one cb l.
Proof.
  intros Hne. induction l as [|y l IH]; intros Hin; [done|].
  simpl. case_decide as Hy.
  - apply elem_of_cons in Hin as [->|Hin]; [by subst|done].
  - apply elem_of_cons in Hin as [->|Hin]; [left | right; auto].
Qed.

Lemma filter_snoc_false {A} (f : A → bool) (l : list A) (x : A) :
  f x = false → List.filter f (l ++ [x]) = List.filter f l.
Proof. intros Hx. rewrite List.filter_app. simpl. rewrite Hx. apply app_nil_r. Qed.

Lemma chart_main_synced (h : Host) (message canvas : string)
    (cw ch width height : nat) :
  gpu h = GpuReady →
  let w := (Visualization.main h (page_loaded message canvas cw ch width height)).2 in
  chart_synced w
  ∧ passes (device_log w) = []
  ∧ depthTexture w = (canvas_width w, canvas_height w)
  ∧ List.filter provisioning (device_log w)
    = [ CreateBuffer VertexBuffer 96; CreateBuffer IndexBuffer 72;
        CreateBuffer InstanceBuffer 240; CreateBuffer UniformBuffer 64;
        CreateShaderModule; CreateRenderPipeline;
        CreateTexture (canvas_width w, canvas_height w) ].
Proof.
  intros Hgpu w. subst w.
  unfold Visualization.main, Visualization.initVisualization, try_catch,
    Visualization.resizeCanvas.
  rewrite Hgpu. unfold_js.
  split; [|split; [reflexivity|split; reflexivity]].
  split; [reflexivity|]. split; [reflexivity|].
  split; [apply creation_values_initial | left].
Qed.

Lemma chart_handle_synced (h : Host) (w : world) (ev : event) :
  chart_synced w →
  let w' := Visualization.handle h w ev in
  chart_synced w'
  ∧ depthTexture w' = depthTexture w
  ∧ List.filter provisioning (device_log w') = List.filter provisioning (device_log w)
  ∧ ∃ new, passes (device_log w') = passes (device_log w) ++ new
           ∧ length new = frames [ev]
           ∧ ∀ p, p ∈ new → chart_pass p.
Proof.
  intros Hsync w'. subst w'. pose proof Hsync as (Hlen & Hmem & Hcre & Hcb).
  assert (Hnone : ∀ p : pass, p ∈ [] → chart_pass p)
    by (intros p Hp; by apply elem_of_nil in Hp).
  destruct ev as [cw ch|time| |r]; unfold Visualization.handle.
  - change (callbacks (set_client cw ch w)) with (callbacks w).
    case_decide.
    + unfold Visualization.resizeCanvas. unfold_js.
      split; [done|]. split; [done|]. split; [by apply filter_snoc_false|].
      exists []. rewrite passes_app. simpl. by rewrite !app_nil_r.
    + split; [done|]. split; [done|]. split; [done|].
      exists []. by rewrite app_nil_r.
  - rewrite decide_True by done.
    unfold Visualization.frame. unfold_js.
    split; [split; [done|split; [done|split; [done|left]]]|].
    split; [done|]. split.
    + by rewrite !filter_snoc_false.
    + eexists [_]. rewrite !passes_app. simpl. rewrite !app_nil_r.
      split; [reflexivity|]. split; [done|].
      intros p Hp. apply list_elem_of_singleton in Hp as ->.
      split; [reflexivity|]. split; [reflexivity|]. simpl.
      rewrite fn_lookup_insert_ne by done. etrans; [|exact Hlen]. by f_equal.
  - case_decide.
    + unfold_js. split; [split; [done|split; [done|split; [done|by right]]]|].
      split; [done|]. split; [done|]. exists []. by rewrite app_nil_r.
    + split; [done|]. split; [done|]. split; [done|].
      exists []. by rewrite app_nil_r.
  - case_decide.
    + destruct (fetch_is_bind h r
                  (set_callbacks (remove_one FetchContinuation (callbacks w)) w))
        as (vs & k & Hok & ->).
      set (w1 := set_random_calls k
                   (set_callbacks (remove_one FetchContinuation (callbacks w)) w)).
      split; [split; [|split; [|split]]|split; [|split]].
      * by rewrite update_length.
      * by apply update_memory.
      * by apply update_keeps_creation_values.
      * rewrite update_unfold by done.
        change (FrameCallback ∈ remove_one FetchContinuation (callbacks w)).
        by apply remove_one_other.
      * by rewrite update_unfold.
      * rewrite update_device_log by done. by apply filter_snoc_false.
      * exists []. rewrite update_device_log, passes_app by done. simpl.
        by rewrite !app_nil_r.
    + split; [done|]. split; [done|]. split; [done|].
      exists []. by rewrite app_nil_r.
Qed.

Lemma chart_run_synced (h : Host) (evs : list event) (w : world) :
  chart_synced w →
  let w' := Visualization.run h evs w in
  chart_synced w'
  ∧ depthTexture w' = depthTexture w
  ∧ List.filter provisioning (device_log w') = List.filter provisioning (device_log w)
  ∧ ∃ new, passes (device_log w') = passes (device_log w) ++ new
           ∧ length new = frames evs
           ∧ ∀ p, p ∈ new → chart_pass p.
Proof.
  revert w. induction evs as [|ev evs IH]; intros w Hsync.
  - simpl. split; [done|]. split; [done|]. split; [done|].
    exists []. split; [by rewrite app_nil_r|]. split; [done|].
    intros p Hp. by apply elem_of_nil in Hp.
  - destruct (chart_handle_synced h w ev Hsync)
      as (Hsync1 & Hdepth1 & Hprov1 & new1 & Hlog1 & Hlen1 & Hnew1).
    destruct (IH _ Hsync1) as (Hsync2 & Hdepth2 & Hprov2 & new2 & Hlog2 & Hlen2 & Hnew2).
    simpl. split; [exact Hsync2|].
    split; [by rewrite Hdepth2|]. split; [by rewrite Hprov2|].
    exists (new1 ++ new2). rewrite Hlog2, Hlog1, app_assoc.
    split; [done|]. split.
    + rewrite length_app, Hlen1, Hlen2. unfold frames. simpl.
      by destruct (is_frame ev).
    + intros p Hp. apply elem_of_app in Hp as [Hp|Hp]; auto.
Qed.

(** X10: once the chart has started, whatever the host delivers (resizes,
    frames, interval ticks, requests settling in any way), [instanceData]
    keeps its sixty numbers, the instance buffer on the device holds exactly
    [instanceData], and every offset and every [scale.x] and [scale.z] is as
    created. *)
Theorem chart_buffer_in_sync (h : Host) (message canvas : string)
    (cw ch width height : nat) (evs : list event) :
  gpu h = GpuReady →
  let w :=
    Visualization.run h evs
      (Visualization.main h (page_loaded message canvas cw ch width height)).2 in
  length (instanceData w) = (Visualization.barCount * 6)%nat
  ∧ memory w InstanceBuffer = instanceData w
  ∧ creation_values (instanceData w).
Proof.
  intros Hgpu w.
  destruct (chart_main_synced h message canvas cw ch width height Hgpu) as [Hsync _].
  destruct (chart_run_synced h evs _ Hsync) as ((Hlen & Hmem & Hcre & _) & _).
  auto.
Qed.

Lemma chart_buffer_in_sync_witness :
  let w :=
    Visualization.run sample_host
      [FetchSettled NetworkError; AnimationFrame (num 16); Resize 600 300;
       FetchSettled (Response true (Parsed (JObject [])))]
      (Visualization.main sample_host (page_loaded "none" "block" 300 150 300 150)).2 in
  memory w InstanceBuffer = instanceData w.
Proof.
  intros w.
  destruct (chart_buffer_in_sync sample_host "none" "block" 300 150 300 150
              [FetchSettled NetworkError; AnimationFrame (num 16); Resize 600 300;
               FetchSettled (Response true (Parsed (JObject [])))] eq_refl)
    as (_ & Hmem & _).
  exact Hmem.
Defined.

(** X11: once the chart has started, every animation frame the host delivers
    is rendered, data or no data: the passes submitted are as many as the
    frames delivered, and each draws the cube's 36 indices for [barCount]
    instances out of an instance buffer of sixty numbers. *)
Theorem chart_every_frame_renders (h : Host) (message canvas : string)
    (cw ch width height : nat) (evs : list event) :
  gpu h = GpuReady →
  let w :=
    Visualization.run h evs
      (Visualization.main h (page_loaded message canvas cw ch width height)).2 in
  length (passes (device_log w)) = frames evs
  ∧ ∀ p, p ∈ passes (device_log w) → chart_pass p.
Proof.
  intros Hgpu w.
  destruct (chart_main_synced h message canvas cw ch width height Hgpu)
    as (Hsync & Hnone & _).
  destruct (chart_run_synced h evs _ Hsync) as (_ & _ & _ & new & Hlog & Hlen & Hnew).
  subst w. rewrite Hlog, Hnone. simpl. auto.
Qed.

Lemma chart_every_frame_renders_witness :
  let w :=
    Visualization.run sample_host
      [AnimationFrame (num 16); FetchSettled NetworkError; AnimationFrame (num 33)]
      (Visualization.main sample_host (page_loaded "none" "block" 300 150 300 150)).2 in
  length (passes (device_log w)) = 2%nat.
Proof.
  intros w.
  destruct (chart_every_frame_renders sample_host "none" "block" 300 150 300 150
              [AnimationFrame (num 16); FetchSettled NetworkError;
               AnimationFrame (num 33)] eq_refl) as [Hlen _].
  exact Hlen.
Defined.

(** X12: the chart provisions its resources once: whatever the host delivers
    after start-up, the only buffers, shader module, pipeline and texture
    ever created are the seven of start-up (vertex buffer of 96 bytes, index
    buffer of 72, instance buffer of 240, uniform buffer of 64), and
    [depthTexture] keeps the size the canvas had at start-up. *)
Theorem chart_provisions_once (h : Host) (message canvas : string)
    (cw ch width height : nat) (evs : list event) :
  gpu h = GpuReady →
  let w0 := (Visualization.main h (page_loaded message canvas cw ch width height)).2 in
  let w := Visualization.run h evs w0 in
  List.filter provisioning (device_log w)
  = [ CreateBuffer VertexBuffer 96; CreateBuffer IndexBuffer 72;
      CreateBuffer InstanceBuffer 240; CreateBuffer UniformBuffer 64;
      CreateShaderModule; CreateRenderPipeline;
      CreateTexture (canvas_width w0, canvas_height w0) ]
  ∧ depthTexture w = (canvas_width w0, canvas_height w0).
Proof.
  intros Hgpu w0 w.
  destruct (chart_main_synced h message canvas cw ch width height Hgpu)
    as (Hsync & _ & Hdepth & Hprov).
  destruct (chart_run_synced h evs _ Hsync) as (_ & Hdepth' & Hprov' & _).
  subst w w0. by rewrite Hprov', Hdepth'.
Qed.

Lemma chart_provisions_once_witness :
  depthTexture
    (Visualization.run sample_host
       [Resize 600 300; AnimationFrame (num 16); Resize 800 400; AnimationFrame (num 33)]
       (Visualization.main sample_host (page_loaded "none" "block" 300 150 300 150)).2)
  = (300, 150)%nat.
Proof.
  destruct (chart_provisions_once sample_host "none" "block" 300 150 300 150
              [Resize 600 300; AnimationFrame (num 16); Resize 800 400;
               AnimationFrame (num 33)] eq_refl) as [_ Hdepth].
  exact Hdepth.
Defined.

(** ** The viewer, whatever the host delivers *)

Lemma viewer_main_running (h : Host) (message canvas : string)
    (cw ch width height : nat) :
  gpu h = GpuReady →
  let w := (Viewer.main h (page_loaded message canvas cw ch width height)).2 in
  FrameCallback ∈ callbacks w
  ∧ passes (device_log w) = []
  ∧ List.filter static_setup (device_log w)
    = [ CreateBuffer VertexBuffer 192; CreateBuffer IndexBuffer 72;
        CreateBuffer UniformBuffer 64; CreateShaderModule; CreateRenderPipeline;
        CreateBindGroup ]
  ∧ length (List.filter is_create_texture (device_log w)) = 1%nat
  ∧ length (List.filter is_destroy_texture (device_log w)) = 0%nat.
Proof.
  intros Hgpu w. subst w.
  unfold Viewer.main, Viewer.initWebGPU, try_catch, Viewer.resizeCanvas.
  rewrite Hgpu. unfold_js.
  split; [left|]. repeat split; reflexivity.
Qed.

Lemma viewer_handle_running (h : Host) (w : world) (ev : event) :
  FrameCallback ∈ callbacks w →
  let w' := Viewer.handle h w ev in
  FrameCallback ∈ callbacks w'
  ∧ List.filter static_setup (device_log w') = List.filter static_setup (device_log w)
  ∧ (∃ k, length (List.filter is_create_texture (device_log w'))
          = (length (List.filter is_create_texture (device_log w)) + k)%nat
          ∧ length (List.filter is_destroy_texture (device_log w'))
            = (length (List.filter is_destroy_texture (device_log w)) + k)%nat)
  ∧ ∃ new, passes (device_log w') = passes (device_log w) ++ new
           ∧ length new = frames [ev]
           ∧ ∀ p, p ∈ new → viewer_pass p.
Proof.
  intros Hcb w'. subst w'.
  assert (Hnone : ∀ p : pass, p ∈ [] → viewer_pass p)
    by (intros p Hp; by apply elem_of_nil in Hp).
  assert (Hidle :
    FrameCallback ∈ callbacks w
    ∧ List.filter static_setup (device_log w) = List.filter static_setup (device_log w)
    ∧ (∃ k, length (List.filter is_create_texture (device_log w))
            = (length (List.filter is_create_texture (device_log w)) + k)%nat
            ∧ length (List.filter is_destroy_texture (device_log w))
              = (length (List.filter is_destroy_texture (device_log w)) + k)%nat)
    ∧ ∃ new, passes (device_log w) = passes (device_log w) ++ new
             ∧ length new = 0%nat
             ∧ ∀ p, p ∈ new → viewer_pass p).
  { split; [done|]. split; [done|]. split; [exists 0%nat; lia|].
    exists []. by rewrite app_nil_r. }
  destruct ev as [cw ch|time| |r]; unfold Viewer.handle; try exact Hidle.
  - change (callbacks (set_client cw ch w)) with (callbacks w).
    case_decide; [|exact Hidle].
    unfold Viewer.resizeCanvas. unfold_js.
    split; [done|]. split; [by apply filter_snoc_false|].
    split; [exists 0%nat; rewrite !Nat.add_0_r; split; by rewrite filter_snoc_false|].
    exists []. rewrite passes_app. simpl. by rewrite !app_nil_r.
  - rewrite decide_True by done.
    unfold Viewer.frame. unfold_js.
    destruct (decide _) as [Hstale|Hfresh]; unfold_js.
    + split; [left|]. split; [by rewrite !filter_snoc_false|]. split.
      * exists 1%nat. rewrite !List.filter_app, !length_app. simpl.
        rewrite !Nat.add_0_r. split; reflexivity.
      * eexists [_]. rewrite !passes_app. simpl. rewrite !app_nil_r.
        split; [reflexivity|]. split; [done|].
        intros p Hp. apply list_elem_of_singleton in Hp as ->. by repeat split.
    + split; [left|]. split; [by rewrite !filter_snoc_false|]. split.
      * exists 0%nat. rewrite !Nat.add_0_r. split; by rewrite !filter_snoc_false.
      * eexists [_]. rewrite !passes_app. simpl. rewrite !app_nil_r.
        split; [reflexivity|]. split; [done|].
        intros p Hp. apply list_elem_of_singleton in Hp as ->.
        split; [reflexivity|]. split; [reflexivity|].
        simpl. by apply texture_fresh.
Qed.

Lemma viewer_run_running (h : Host) (evs : list event) (w : world) :
  FrameCallback ∈ callbacks w →
  let w' := Viewer.run h evs w in
  List.filter static_setup (device_log w') = List.filter static_setup (device_log w)
  ∧ (∃ k, length (List.filter is_create_texture (device_log w'))
          = (length (List.filter is_create_texture (device_log w)) + k)%nat
          ∧ length (List.filter is_destroy_texture (device_log w'))
            = (length (List.filter is_destroy_texture (device_log w)) + k)%nat)
  ∧ ∃ new, passes (device_log w') = passes (device_log w) ++ new
           ∧ length new = frames evs
           ∧ ∀ p, p ∈ new → viewer_pass p.
Proof.
  revert w. induction evs as [|ev evs IH]; intros w Hcb.
  - simpl. split; [done|]. split; [exists 0%nat; lia|].
    exists []. split; [by rewrite app_nil_r|]. split; [done|].
    intros p Hp. by apply elem_of_nil in Hp.
  - destruct (viewer_handle_running h w ev Hcb)
      as (Hcb1 & Hset1 & (k1 & Hc1 & Hd1) & new1 & Hlog1 & Hlen1 & Hnew1).
    destruct (IH _ Hcb1) as (Hset2 & (k2 & Hc2 & Hd2) & new2 & Hlog2 & Hlen2 & Hnew2).
    simpl. split; [by rewrite Hset2|]. split.
    + exists (k1 + k2)%nat. rewrite Hc2, Hd2, Hc1, Hd1. lia.
    + exists (new1 ++ new2). rewrite Hlog2, Hlog1, app_assoc.
      split; [done|]. split.
      * rewrite length_app, Hlen1, Hlen2. unfold frames. simpl.
        by destruct (is_frame ev).
      * intros p Hp. apply elem_of_app in Hp as [Hp|Hp]; auto.
Qed.

(** X13: once the viewer has started, every animation frame the host
    delivers is rendered: the passes submitted are as many as the frames
    delivered, and each draws the cube's 36 indices once with a depth
    attachment of the size of its target. *)
Theorem viewer_every_frame_renders (h : Host) (message canvas : string)
    (cw ch width height : nat) (evs : list event) :
  gpu h = GpuReady →
  let w :=
    Viewer.run h evs
      (Viewer.main h (page_loaded message canvas cw ch width height)).2 in
  length (passes (device_log w)) = frames evs
  ∧ ∀ p, p ∈ passes (device_log w) → viewer_pass p.
Proof.
  intros Hgpu w.
  destruct (viewer_main_running h message canvas cw ch width height Hgpu)
    as (Hcb & Hnone & _).
  destruct (viewer_run_running h evs _ Hcb) as (_ & _ & new & Hlog & Hlen & Hnew).
  subst w. rewrite Hlog, Hnone. simpl. auto.
Qed.

Lemma viewer_every_frame_renders_witness :
  let w :=
    Viewer.run sample_host
      [AnimationFrame (num 16); Resize 600 300; AnimationFrame (num 33)]
      (Viewer.main sample_host (page_loaded "none" "block" 300 150 300 150)).2 in
  length (passes (device_log w)) = 2%nat.
Proof.
  intros w.
  destruct (viewer_every_frame_renders sample_host "none" "block" 300 150 300 150
              [AnimationFrame (num 16); Resize 600 300; AnimationFrame (num 33)]
              eq_refl) as [Hlen _].
  exact Hlen.
Defined.

(** X14: the viewer provisions its buffers, shader module, pipeline and bind
    group once, at start-up (vertex buffer of 192 bytes, index buffer of 72,
    uniform buffer of 64); afterwards it only ever replaces the depth
    texture, destroying the old one for each one it creates, so that the
    textures created are always one more than the textures destroyed. *)
Theorem viewer_provisions_once (h : Host) (message canvas : string)
    (cw ch width height : nat) (evs : list event) :
  gpu h = GpuReady →
  let w :=
    Viewer.run h evs
      (Viewer.main h (page_loaded message canvas cw ch width height)).2 in
  List.filter static_setup (device_log w)
  = [ CreateBuffer VertexBuffer 192; CreateBuffer IndexBuffer 72;
      CreateBuffer UniformBuffer 64; CreateShaderModule; CreateRenderPipeline;
      CreateBindGroup ]
  ∧ length (List.filter is_create_texture (device_log w))
    = S (length (List.filter is_destroy_texture (device_log w))).
Proof.
  intros Hgpu w.
  destruct (viewer_main_running h message canvas cw ch width height Hgpu)
    as (Hcb & _ & Hset & Hc & Hd).
  destruct (viewer_run_running h evs _ Hcb) as (Hset' & (k & Hc' & Hd') & _).
  subst w. rewrite Hset', Hc', Hd', Hc, Hd. split; [exact Hset | lia].
Qed.

Lemma viewer_provisions_once_witness :
  let w :=
    Viewer.run sample_host
      [Resize 600 300; AnimationFrame (num 16); AnimationFrame (num 33)]
      (Viewer.main sample_host (page_loaded "none" "block" 300 150 300 150)).2 in
  length (List.filter is_create_texture (device_log w))
  = S (length (List.filter is_destroy_texture (device_log w))).
Proof.
  intros w.
  destruct (viewer_provisions_once sample_host "none" "block" 300 150 300 150
              [Resize 600 300; AnimationFrame (num 16); AnimationFrame (num 33)]
              eq_refl) as [_ Hbal].
  exact Hbal.
Defined.

(** ** Start-up without an adapter *)

Lemma chart_idle_message (h : Host) (evs : list event) (w : world) :
  callbacks w = [] →
  message_display (Visualization.run h evs w) = message_display w.
Proof.
  revert w. induction evs as [|ev evs IH]; intros w Hidle; [done|].
  destruct (chart_idle_handle h w ev Hidle) as [Hcb _].
  simpl. rewrite (IH _ Hcb).
  destruct ev as [cw ch| | |]; unfold Visualization.handle;
    try (rewrite decide_False; [done|rewrite Hidle; apply not_elem_of_nil]).
  change (callbacks (set_client cw ch w)) with (callbacks w).
  rewrite decide_False; [done|rewrite Hidle; apply not_elem_of_nil].
Qed.

Lemma viewer_idle_message (h : Host) (evs : list event) (w : world) :
  callbacks w = [] →
  message_display (Viewer.run h evs w) = message_display w.
Proof.
  revert w. induction evs as [|ev evs IH]; intros w Hidle; [done|].
  destruct (viewer_idle_handle h w ev Hidle) as [Hcb _].
  simpl. rewrite (IH _ Hcb).
  destruct ev as [cw ch| | |]; unfold Viewer.handle; try done;
    try (rewrite decide_False; [done|rewrite Hidle; apply not_elem_of_nil]).
  change (callbacks (set_client cw ch w)) with (callbacks w).
  rewrite decide_False; [done|rewrite Hidle; apply not_elem_of_nil].
Qed.

(** X15: when [navigator.gpu] is there but [requestAdapter()] resolves to
    [null], [initVisualization] and [initWebGPU] throw a [TypeError] before
    touching anything; the [catch] of the last line swallows it, so the page
    is left exactly as loaded, the fallback message is not shown, and
    nothing ever reaches the device. *)
Theorem no_adapter_silent (h : Host) (message canvas : string)
    (cw ch width height : nat) (evs : list event) :
  gpu h = NoAdapter →
  let page := page_loaded message canvas cw ch width height in
  ((Visualization.initVisualization h page).1 = Throw TypeError
   ∧ Visualization.main h page = (Normal tt, page)
   ∧ message_display (Visualization.run h evs page) = message
   ∧ device_log (Visualization.run h evs page) = [])
  ∧ ((Viewer.initWebGPU h page).1 = Throw TypeError
     ∧ Viewer.main h page = (Normal tt, page)
     ∧ message_display (Viewer.run h evs page) = message
     ∧ device_log (Viewer.run h evs page) = []).
Proof.
  intros Hgpu page.
  unfold Visualization.main, Visualization.initVisualization,
    Viewer.main, Viewer.initWebGPU, try_catch. rewrite Hgpu.
  split.
  - split; [reflexivity|]. split; [reflexivity|].
    split; [by rewrite chart_idle_message | by rewrite chart_idle_run].
  - split; [reflexivity|]. split; [reflexivity|].
    split; [by rewrite viewer_idle_message | by rewrite viewer_idle_run].
Qed.

Lemma no_adapter_silent_witness :
  let h := {| math := sample_math; random := λ _, num 0.5;
              parseFloat := λ _, NaN; gpu := NoAdapter;
              devicePixelRatio := num 1; pixels := floor_pixels;
              max_arguments := 65535; max_arguments_chart := eq_refl |} in
  Visualization.main h sample_page = (Normal tt, sample_page)
  ∧ Viewer.main h sample_page = (Normal tt, sample_page).
Proof.
  intros h.
  destruct (no_adapter_silent h "none" "block" 300 150 300 150 [] eq_refl)
    as [(_ & Hchart & _) (_ & Hcube & _)].
  split; [exact Hchart | exact Hcube].
Defined.

(** ** From the request to the bars *)

Lemma in_range_finite (lo hi : Qc) (values : list number) :
  Forall (in_range lo hi) values →
  ∃ qs, values = Fin <$> qs ∧ Forall (λ q, lo ≤ q ∧ q < hi) qs.
Proof.
  induction 1 as [|v values (q & -> & Hq) _ (qs & -> & Hqs)].
  - by exists [].
  - exists (q :: qs). split; [done|]. by constructor.
Qed.

(** The bars after binding magnitudes that all lie in [[lo, hi)], [0 <= lo]:
    within [[0.05, 0.95]], and at least [0.05 + ratio * 0.9] when
    [ratio * hi <= lo] and [ratio * 1 <= lo]. *)
Lemma bound_bars (h : Host) (qs : list Qc) (lo hi ratio : Qc) (w : world) :
  length qs = Visualization.barCount →
  length (instanceData w) = (Visualization.barCount * 6)%nat →
  Forall (λ q, lo ≤ q ∧ q < hi) qs →
  0 ≤ lo → 0 ≤ ratio → ratio * hi ≤ lo → ratio ≤ lo →
  ∀ i, (i < Visualization.barCount)%nat →
    ∃ y, Visualization.scale_y
           (instanceData (Visualization.updateInstanceScales h (Fin <$> qs) w).2) i
         = Fin y
         ∧ Q2Qc 0.05 + ratio * Q2Qc 0.9 ≤ y ∧ y ≤ Q2Qc 0.95.
Proof.
  intros Hlen Hdata Hqs Hlo Hratio Hhi H1 i Hi.
  assert (Hok : accepted h (Fin <$> qs))
    by (apply accepted_barCount; by rewrite length_fmap).
  pose proof (foldr_qmax_greatest qs 1) as Hm.
  set (m := foldr qmax 1 qs) in *.
  assert (H1m : 1 ≤ m) by (apply Hm; left).
  assert (Hpos : 0 < m) by (eapply Qclt_le_trans; [|exact H1m]; done).
  assert (Hm0 : m ≠ 0) by by apply Qc_pos_ne.
  destruct (lookup_lt_is_Some_2 qs i) as [v Hv]; [by rewrite Hlen|].
  assert (Hvin : v ∈ qs) by by eapply list_elem_of_lookup_2.
  rewrite list.Forall_forall in Hqs.
  destruct (Hqs v Hvin) as [Hvlo Hvhi].
  assert (Hvm : v ≤ m) by (apply Hm; by right).
  assert (Hrm : ratio * m ≤ v).
  { etrans; [|exact Hvlo]. destruct Hm as [Hin _].
    apply elem_of_cons in Hin as [->|Hin].
    - by rewrite Qcmult_1_r.
    - etrans; [|exact Hhi]. apply Qcmult_le_mono_nonneg_l; [done|].
      apply Qclt_le_weak. by apply Hqs. }
  exists (Q2Qc 0.05 + v / m * Q2Qc 0.9). split.
  - rewrite update_scale_y by done.
    rewrite (largest_greatest _ _ Hm), list_lookup_fmap, Hv. simpl.
    by case_decide.
  - split; [|apply scale_range; [by transitivity lo|done|done]].
    apply Qcplus_le_mono_l. apply Qcmult_le_mono_nonneg_r; [done|].
    assert (E : ratio = ratio * m / m) by (by field). rewrite E.
    apply Qcmult_le_mono_nonneg_r; [|done].
    by apply Qclt_le_weak, Qcinv_pos.
Qed.

(** X16: when the request fails, or comes back without a usable rate, and
    every draw of [Math.random()] is in [[0, 1)], [fetchDataAndUpdate]
    leaves every bar with a [scale.y] within [[0.05, 0.95]]. *)
Theorem fetch_fallback_bars (h : Host) (r : fetch_result) (w : world) :
  unit_random h →
  length (instanceData w) = (Visualization.barCount * 6)%nat →
  full_fallback r ∨ synthetic_rate h r →
  ∀ i, (i < Visualization.barCount)%nat →
    ∃ y, Visualization.scale_y
           (instanceData (Visualization.fetchDataAndUpdate h r w).2) i = Fin y
         ∧ Q2Qc 0.05 ≤ y ∧ y ≤ Q2Qc 0.95.
Proof.
  intros Hr Hdata Hcase i Hi.
  assert (Hbars : ∀ values k hi,
    length values = Visualization.barCount →
    Forall (in_range 0 hi) values →
    ∃ y, Visualization.scale_y
           (instanceData
              (Visualization.updateInstanceScales h values (set_random_calls k w)).2) i
         = Fin y ∧ Q2Qc 0.05 ≤ y ∧ y ≤ Q2Qc 0.95).
  { intros values k hi Hlen Hrange.
    apply in_range_finite in Hrange as (qs & -> & Hqs).
    rewrite length_fmap in Hlen.
    assert (H0 : 0 * hi ≤ 0) by (by rewrite Qcmult_0_l).
    destruct (bound_bars h qs 0 hi 0 (set_random_calls k w) Hlen Hdata Hqs
                (Qcle_refl 0) (Qcle_refl 0) H0 (Qcle_refl 0) i Hi)
      as (y & Hy & Hlo & Hhi).
    exists y. split; [done|]. split; [|done].
    by rewrite Qcmult_0_l, Qcplus_0_r in Hlo. }
  destruct Hcase as [Hfail|Hsyn].
  - rewrite (fetch_full_fallback h r w Hfail). unfold bind.
    rewrite randomValues_unfold.
    apply (Hbars _ _ (Q2Qc 100)); [by rewrite length_fmap, length_seq|].
    apply Forall_fmap, list.Forall_forall. intros j _. simpl.
    apply (draw_times_range _ (Q2Qc 100)); [done | apply Hr].
  - rewrite (fetch_synthetic_rate h r w Hsyn).
    unfold Math_random, bind, gets, modify, ret. rewrite values_unfold.
    apply (Hbars _ _ (Q2Qc 60000)); [by rewrite length_fmap, length_seq|].
    apply Forall_fmap, list.Forall_forall. intros j _. simpl.
    apply noisy_rate_range; [|apply Hr].
    apply (draw_times_range _ (Q2Qc 50000)); [done | apply Hr].
Qed.

Lemma fetch_fallback_bars_witness :
  ∃ y, Visualization.scale_y
         (instanceData
            (Visualization.fetchDataAndUpdate sample_host NetworkError started).2) 3
       = Fin y
       ∧ Q2Qc 0.05 ≤ y ∧ y ≤ Q2Qc 0.95.
Proof.
  apply (fetch_fallback_bars sample_host NetworkError started
           sample_host_unit_random eq_refl).
  - by left.
  - unfold Visualization.barCount. lia.
Defined.

Lemma fetch_live_rate (h : Host) (r : fetch_result) (a : Qc) (w : world) :
  live_rate h r a → a ≠ 0 →
  Visualization.fetchDataAndUpdate h r w
  = (let* vs := Visualization.values h (Fin a) in
     Visualization.updateInstanceScales h vs) w.
Proof.
  destruct r as [|[] [|data]]; try done.
  intros (text & Ht & Hp) Ha.
  unfold Visualization.fetchDataAndUpdate, bind, try_catch, lift, ret.
  rewrite Ht, Hp. unfold falsy. rewrite bool_decide_false by done.
  rewrite !values_unfold. by rewrite update_unfold by apply draws_accepted.
Qed.

Lemma noisy_live_range (a : Qc) (r : number) :
  0 < a → in_range 0 1 r →
  in_range (Q2Qc 0.8 * a) (Q2Qc 1.2 * a) (Fin a * (num 0.8 + r * num 0.4))%js.
Proof.
  intros Ha (q & -> & Hq0 & Hq1).
  exists (a * (Q2Qc 0.8 + q * Q2Qc 0.4)). split; [done|].
  rewrite !(Qcmult_comm _ a). split.
  - apply Qcmult_le_mono_nonneg_l; [by apply Qclt_le_weak|].
    rewrite <- (Qcplus_0_r (Q2Qc 0.8)) at 1.
    apply Qcplus_le_mono_l. by apply Qcmult_nonneg_nonneg.
  - apply Qcmult_lt_mono_pos_l; [done|].
    assert (E : Q2Qc 1.2 = Q2Qc 0.8 + 1 * Q2Qc 0.4) by (apply Qc_is_canon; reflexivity).
    rewrite E. apply Qcplus_lt_mono_l. by apply Qcmult_lt_mono_pos_r.
Qed.

(** X17: when the response is well formed and its rate parses to a number
    from [1.25] to [10^300] (so that no magnitude leaves the range of the
    machine's numbers), and every draw of [Math.random()] is in [[0, 1)],
    every bar ends with a [scale.y] within [[0.64, 0.95]]: the noise of 0.8
    to 1.2 around one rate keeps every bar at about two thirds of the
    tallest or more, whatever the rate. *)
Theorem fetch_live_bars (h : Host) (r : fetch_result) (a : Qc) (w : world) :
  unit_random h →
  length (instanceData w) = (Visualization.barCount * 6)%nat →
  live_rate h r a → Q2Qc 1.25 ≤ a → a ≤ Q2Qc (inject_Z (10 ^ 300)) →
  ∀ i, (i < Visualization.barCount)%nat →
    ∃ y, Visualization.scale_y
           (instanceData (Visualization.fetchDataAndUpdate h r w).2) i = Fin y
         ∧ Q2Qc 0.64 ≤ y ∧ y ≤ Q2Qc 0.95.
Proof.
  intros Hr Hdata Hlive Ha _ i Hi.
  assert (Hpos : 0 < a) by (eapply Qclt_le_trans; [|exact Ha]; done).
  rewrite (fetch_live_rate h r a w Hlive) by by apply Qc_pos_ne.
  unfold bind. rewrite values_unfold.
  assert (Hrange :
    Forall (in_range (Q2Qc 0.8 * a) (Q2Qc 1.2 * a))
      ((λ j, Fin a * (num 0.8 + random h (random_calls w + j)%nat * num 0.4))%js
       <$> seq 0 Visualization.barCount)).
  { apply Forall_fmap, list.Forall_forall. intros j _. simpl.
    apply noisy_live_range; [done | apply Hr]. }
  apply in_range_finite in Hrange as (qs & Hqs & Hbounds).
  assert (Hlen : length qs = Visualization.barCount).
  { rewrite <- (length_fmap Fin), <- Hqs. by rewrite length_fmap, length_seq. }
  rewrite Hqs.
  assert (Hone : 1 ≤ Q2Qc 0.8 * a).
  { assert (E : 1 = Q2Qc 0.8 * Q2Qc 1.25) by (apply Qc_is_canon; reflexivity).
    rewrite E. by apply Qcmult_le_mono_nonneg_l. }
  assert (H23 : Q2Qc (2 # 3) * (Q2Qc 1.2 * a) ≤ Q2Qc 0.8 * a).
  { assert (E : Q2Qc (2 # 3) * Q2Qc 1.2 = Q2Qc 0.8) by (apply Qc_is_canon; reflexivity).
    by rewrite Qcmult_assoc, E. }
  destruct (bound_bars h qs (Q2Qc 0.8 * a) (Q2Qc 1.2 * a) (Q2Qc (2 # 3))
              (set_random_calls (random_calls w + Visualization.barCount)%nat w)
              Hlen Hdata Hbounds)
    with (i := i) as (y & Hy & Hlo & Hhi); try done.
  - by transitivity 1.
  - transitivity 1; [qc_le | done].
  - exists y. split; [done|]. split; [|done].
    assert (E : Q2Qc 0.65 = Q2Qc 0.05 + Q2Qc (2 # 3) * Q2Qc 0.9)
      by (apply Qc_is_canon; reflexivity).
    transitivity (Q2Qc 0.65); [qc_le | by rewrite E].
Qed.

Lemma fetch_live_bars_witness :
  let h := {| math := sample_math; random := λ _, num 0.5;
              parseFloat := λ _, num 64000; gpu := GpuReady;
              devicePixelRatio := num 1; pixels := floor_pixels;
              max_arguments := 65535; max_arguments_chart := eq_refl |} in
  let r := Response true
             (Parsed (JObject [("bpi", JObject [("USD",
                        JObject [("rate", JString "64,000.0")])])]))%string in
  ∃ y, Visualization.scale_y
         (instanceData (Visualization.fetchDataAndUpdate h r started).2) 0 = Fin y
       ∧ Q2Qc 0.64 ≤ y ∧ y ≤ Q2Qc 0.95.
Proof.
  intros h r.
  apply (fetch_live_bars h r (Q2Qc 64000) started).
  - intros n. exists (Q2Qc 0.5). split; [reflexivity|]. split; [qc_le|reflexivity].
  - reflexivity.
  - exists (Some "64000.0"%string). split; reflexivity.
  - qc_le.
  - qc_le.
  - unfold Visualization.barCount. lia.
Defined.

(** ** The canvas and the camera *)

Lemma chart_handle_listening (h : Host) (w : world) (ev : event) :
  ResizeListener ∈ callbacks w →
  ResizeListener ∈ callbacks (Visualization.handle h w ev).
Proof.
  intros Hcb. destruct ev as [cw ch|time| |r]; unfold Visualization.handle.
  - change (callbacks (set_client cw ch w)) with (callbacks w).
    by rewrite decide_True.
  - case_decide; [|done]. unfold Visualization.frame. unfold_js.
    right. by apply remove_one_other.
  - case_decide; [|done]. unfold_js. by right.
  - case_decide; [|done].
    destruct (fetch_is_bind h r
                (set_callbacks (remove_one FetchContinuation (callbacks w)) w))
      as (vs & k & Hok & ->).
    rewrite update_unfold by done.
    change (ResizeListener ∈ remove_one FetchContinuation (callbacks w)).
    by apply remove_one_other.
Qed.

Lemma viewer_handle_listening (h : Host) (w : world) (ev : event) :
  ResizeListener ∈ callbacks w →
  ResizeListener ∈ callbacks (Viewer.handle h w ev).
Proof.
  intros Hcb. destruct ev as [cw ch|time| |r]; unfold Viewer.handle; try done.
  - change (callbacks (set_client cw ch w)) with (callbacks w).
    by rewrite decide_True.
  - case_decide; [|done]. unfold Viewer.frame. unfold_js.
    destruct (decide _); unfold_js; right; by apply remove_one_other.
Qed.

Lemma chart_run_listening (h : Host) (evs : list event) (w : world) :
  ResizeListener ∈ callbacks w →
  ResizeListener ∈ callbacks (Visualization.run h evs w).
Proof.
  revert w. induction evs as [|ev evs IH]; intros w Hcb; [done|].
  simpl. by apply IH, chart_handle_listening.
Qed.

Lemma viewer_run_listening (h : Host) (evs : list event) (w : world) :
  ResizeListener ∈ callbacks w →
  ResizeListener ∈ callbacks (Viewer.run h evs w).
Proof.
  revert w. induction evs as [|ev evs IH]; intros w Hcb; [done|].
  simpl. by apply IH, viewer_handle_listening.
Qed.

Lemma of_nat_times_one (n : nat) : (of_nat n * num 1)%js = of_nat n.
Proof. unfold of_nat, num. simpl. f_equal. apply Qcmult_1_r. Qed.

(** X18: once either page has started, however many events came before, a
    resize leaves the canvas with the pixel size of the new layout size
    times [window.devicePixelRatio || 1]; a ratio of [0] or [NaN] counts as
    [1]. *)
Theorem canvas_follows_resize (h : Host) (message canvas : string)
    (cw ch width height : nat) (evs : list event) (cw' ch' : nat) :
  gpu h = GpuReady →
  let page := page_loaded message canvas cw ch width height in
  let chart :=
    Visualization.run h (evs ++ [Resize cw' ch']) (Visualization.main h page).2 in
  let cube := Viewer.run h (evs ++ [Resize cw' ch']) (Viewer.main h page).2 in
  let ratio := if falsy (devicePixelRatio h) then num 1 else devicePixelRatio h in
  canvas_width chart = pixels h (of_nat cw' * ratio)%js
  ∧ canvas_height chart = pixels h (of_nat ch' * ratio)%js
  ∧ canvas_width cube = pixels h (of_nat cw' * ratio)%js
  ∧ canvas_height cube = pixels h (of_nat ch' * ratio)%js
  ∧ (falsy (devicePixelRatio h) = true →
     canvas_width chart = pixels h (of_nat cw')
     ∧ canvas_height chart = pixels h (of_nat ch')).
Proof.
  intros Hgpu page chart cube ratio.
  assert (Hchart : ResizeListener ∈ callbacks (Visualization.main h page).2).
  { unfold Visualization.main, Visualization.initVisualization, try_catch,
      Visualization.resizeCanvas. rewrite Hgpu. unfold_js. do 3 right. left. }
  assert (Hcube : ResizeListener ∈ callbacks (Viewer.main h page).2).
  { unfold Viewer.main, Viewer.initWebGPU, try_catch, Viewer.resizeCanvas.
    rewrite Hgpu. unfold_js. right. left. }
  apply (chart_run_listening h evs) in Hchart.
  apply (viewer_run_listening h evs) in Hcube.
  assert (Ew : canvas_width chart = pixels h (of_nat cw' * ratio)%js
               ∧ canvas_height chart = pixels h (of_nat ch' * ratio)%js).
  { subst chart. unfold Visualization.run. rewrite foldl_app. simpl.
    change (callbacks (set_client cw' ch' ?w)) with (callbacks w).
    rewrite decide_True by exact Hchart. split; reflexivity. }
  destruct Ew as [Ew Eh].
  split; [exact Ew|]. split; [exact Eh|]. split; [|split].
  - subst cube. unfold Viewer.run. rewrite foldl_app. simpl.
    change (callbacks (set_client cw' ch' ?w)) with (callbacks w).
    rewrite decide_True by exact Hcube. reflexivity.
  - subst cube. unfold Viewer.run. rewrite foldl_app. simpl.
    change (callbacks (set_client cw' ch' ?w)) with (callbacks w).
    rewrite decide_True by exact Hcube. reflexivity.
  - intros Hfalsy. rewrite Ew, Eh. subst ratio. rewrite Hfalsy.
    by rewrite !of_nat_times_one.
Qed.

Lemma canvas_follows_resize_witness :
  let h := {| math := sample_math; random := λ _, num 0.5;
              parseFloat := λ _, NaN; gpu := GpuReady;
              devicePixelRatio := NaN; pixels := floor_pixels;
              max_arguments := 65535; max_arguments_chart := eq_refl |} in
  canvas_width
    (Visualization.run h ([AnimationFrame (num 16)] ++ [Resize 640 480])
       (Visualization.main h (page_loaded "none" "block" 300 150 300 150)).2)
  = floor_pixels (of_nat 640).
Proof.
  intros h.
  destruct (canvas_follows_resize h "none" "block" 300 150 300 150
              [AnimationFrame (num 16)] 640 480 eq_refl)
    as (_ & _ & _ & _ & Hone).
  destruct (Hone eq_refl) as [Hw _]. exact Hw.
Defined.





